(** * Descriptor matching service: codec, lazy category cache, matcher

    A shallow embedding of [api/index.js]: the descriptor codec
    ([deserializeDescriptors]), the lazily populated category cache
    ([templateFeatures], [loadFeaturesFromCache]) and the matcher
    ([matchEquipment]), followed by the properties proved about them.

    Conventions.
    - Bytes are [N] values below 256; a descriptor is a list of bytes.
    - A JavaScript object used as a dictionary is kept as the list of its
      own properties in creation order, because [for ... in] enumerates
      them in an order that depends on it (see [for_in]).  The cache
      [templateFeatures] itself is a finite map from category names to
      such objects; the categories that the routes pass are not names of
      properties inherited from [Object.prototype] (see [JsObject.ordinary]).
    - The file system and the OpenCV binding are collaborators of the
      program: the file system is a function from file names to what a
      read finds there; the definitions of the matcher take the norm and
      the matrix conversion as section variables, and [NORM_L2] is the
      norm of the matcher that line 165 constructs.
    - Effects that the properties count (file accesses, file reads,
      [knnMatch] calls) are recorded in a trace carried by the state.
      Console output is not modelled. *)

From Stdlib Require Import ZArith NArith QArith List String Ascii Lia.
From Stdlib Require Import Permutation Sorted Bool DecimalString.
From stdpp Require Import base gmap strings list fin_maps.

Local Open Scope string_scope.
Local Open Scope list_scope.

(** ** Results of fallible code *)

(** [new Error(message)] *)
Inductive Error := mkError (message : string).

Inductive result (A : Type) :=
| Ok (a : A)
| Throw (e : Error).
Arguments Ok {A} a.
Arguments Throw {A} e.

Definition is_throw {A} (r : result A) : bool :=
  match r with Ok _ => false | Throw _ => true end.

(** ** Stable sorting

    [Array.prototype.sort] is stable, and so is the order in which the
    brute-force matcher reports equally distant neighbours.  Both are
    modelled by insertion sort: an element is placed before the first
    element that it does not exceed. *)
Module StableSort.
Section Sort.
Context {A : Type} (le : A -> A -> bool).

Fixpoint insert (x : A) (l : list A) : list A :=
  match l with
  | [] => [x]
  | y :: rest => if le x y then x :: l else y :: insert x rest
  end.

Fixpoint sort (l : list A) : list A :=
  match l with
  | [] => []
  | x :: rest => insert x (sort rest)
  end.

(** The order as a relation. *)
Definition lep (a b : A) : Prop := le a b = true.

End Sort.
End StableSort.

(** ** JavaScript strings

    A string is a sequence of UTF-16 code units.  Encoded blobs are kept in
    this form, because the base64 decoder of the runtime looks at each code
    unit; names of categories and templates, which the program only
    compares, enumerates and concatenates, are kept as byte strings. *)
Definition JsString := list N.

(** The code units of a text whose characters are all below U+0100. *)
Definition units (s : string) : JsString :=
  List.map N_of_ascii (list_ascii_of_string s).

(** ** [Buffer.from(s, 'base64')]

    The runtime's decoder is lenient.  It reads every code unit by its low
    byte; a unit whose low byte is outside the alphabet (standard or
    URL-safe) is skipped, the first unit whose low byte is ['='] ends the
    input, and an incomplete final group yields the bytes it determines.
    It never throws on a string. *)
Module Base64.

Definition unbase64 (c : N) : option N :=
  let n := N.land c 255 in
  (if (65 <=? n) && (n <=? 90) then Some (n - 65)
   else if (97 <=? n) && (n <=? 122) then Some (n - 71)
   else if (48 <=? n) && (n <=? 57) then Some (n + 4)
   else if (n =? 43) || (n =? 45) then Some 62
   else if (n =? 47) || (n =? 95) then Some 63
   else None)%N.

(** The low byte of the unit is ['=']. *)
Definition is_pad (c : N) : bool := (N.land c 255 =? 61)%N.

Fixpoint sextets (s : JsString) : list N :=
  match s with
  | [] => []
  | c :: rest =>
      match unbase64 c with
      | Some v => v :: sextets rest
      | None => if is_pad c then [] else sextets rest
      end
  end.

Definition byte0 (a b : N) : N :=
  (N.lor (N.shiftl (N.land a 63) 2) (N.shiftr (N.land b 48) 4))%N.
Definition byte1 (b c : N) : N :=
  (N.lor (N.shiftl (N.land b 15) 4) (N.shiftr (N.land c 60) 2))%N.
Definition byte2 (c d : N) : N :=
  (N.lor (N.shiftl (N.land c 3) 6) (N.land d 63))%N.

Fixpoint groups (l : list N) : list N :=
  match l with
  | a :: b :: c :: d :: rest => byte0 a b :: byte1 b c :: byte2 c d :: groups rest
  | [a; b; c] => [byte0 a b; byte1 b c]
  | [a; b] => [byte0 a b]
  | _ => []
  end.

Definition decode (s : JsString) : list N := groups (sextets s).

(** Well-formed base64 text in the strict sense (RFC 4648, section 4):
    groups of four characters of the standard alphabet, the last group
    possibly padded with one or two ['=']. *)
Definition std_char (c : N) : bool :=
  (((65 <=? c) && (c <=? 90)) || ((97 <=? c) && (c <=? 122))
   || ((48 <=? c) && (c <=? 57)) || (c =? 43) || (c =? 47))%N.

Definition pad_char (c : N) : bool := (c =? 61)%N.

Fixpoint well_formed (s : JsString) : bool :=
  match s with
  | [] => true
  | a :: b :: c :: d :: rest =>
      std_char a && std_char b &&
      match rest with
      | [] =>
          (std_char c && std_char d)
          || (std_char c && pad_char d)
          || (pad_char c && pad_char d)
      | _ => std_char c && std_char d && well_formed rest
      end
  | _ => false
  end.

End Base64.

(** ** Matrices of the OpenCV binding, as far as the program uses them *)

Definition Descriptor := list N.

Definition CV_8U : Z := 0%Z.

Record Mat := mkMat {
  mat_type : Z;
  mat_cols : nat;
  mat_data : list Descriptor   (* one element per row *)
}.

Definition mat_rows (m : Mat) : nat := length (mat_data m).

(** [new cv.Mat()] *)
Definition new_Mat : Mat := mkMat CV_8U 0%nat [].

(** [m.empty()] *)
Definition mat_empty (m : Mat) : bool :=
  (mat_rows m =? 0)%nat || (mat_cols m =? 0)%nat.

Fixpoint rows_of (rows cols : nat) (data : list N) : list Descriptor :=
  match rows with
  | O => []
  | S r => firstn cols data :: rows_of r cols (skipn cols data)
  end.

(** [cv.matFromArray(rows, cols, type, data)] *)
Definition matFromArray (rows cols : nat) (type : Z) (data : list N) : Mat :=
  mkMat type cols (rows_of rows cols data).

(** ** The descriptor codec *)

Definition string_of_nat (n : nat) : string :=
  NilZero.string_of_uint (Nat.to_uint n).

Definition descriptorSize : nat := 32%nat.

Definition length_message (len : nat) : string :=
  "Invalid descriptor buffer length: " +:+ string_of_nat len +:+
  ". Must be a multiple of " +:+ string_of_nat descriptorSize +:+ ".".

(** Lines 132-153.  The inner [throw] is caught by the function's own
    [catch], which rethrows with a prefixed message. *)
Definition deserializeDescriptors (base64Content : JsString) : result Mat :=
  let buffer := Base64.decode base64Content in
  if negb (length buffer mod descriptorSize =? 0)%nat then
    Throw (mkError ("Failed to deserialize base64 content: " +:+
                    length_message (length buffer)))
  else
    let numDescriptors := (length buffer / descriptorSize)%nat in
    if (numDescriptors =? 0)%nat then Ok new_Mat
    else Ok (matFromArray numDescriptors descriptorSize CV_8U buffer).

(** ** JavaScript objects used as dictionaries

    An object is the list of its own properties in creation order, with
    distinct keys.  Assigning to an existing key keeps the property's
    position; [for ... in] and [Object.keys] list the keys that are array
    indices (canonical decimal numerals below [2^32 - 1]) first, in
    ascending numeric order, then the other keys in creation order.

    The prototype of an object is not part of this representation: the
    objects of the program are created by [{}] and inherit from
    [Object.prototype], whose properties are not enumerable.  The program
    can replace a prototype in one place only, the assignment of line 101
    when an artifact names a template ["__proto__"]; [set] says what this
    assignment does to the own properties (nothing), and what the object
    inherits afterwards is outside the model. *)
Module JsObject.

(** The names of the properties that every object inherits from
    [Object.prototype]: [o[k]] is not [undefined] for them even when [o]
    has no own property [k]. *)
Definition inherited_keys : list string :=
  ["constructor"; "__defineGetter__"; "__defineSetter__"; "hasOwnProperty";
   "__lookupGetter__"; "__lookupSetter__"; "isPrototypeOf";
   "propertyIsEnumerable"; "toString"; "valueOf"; "__proto__";
   "toLocaleString"].

(** A key for which [o[k]] is the own property [k] of [o], or [undefined]. *)
Definition ordinary (k : string) : bool :=
  negb (existsb (String.eqb k) inherited_keys).

Definition digit (c : ascii) : option N :=
  let n := N_of_ascii c in
  (if (48 <=? n) && (n <=? 57) then Some (n - 48) else None)%N.

Fixpoint digits (s : string) (acc : N) : option N :=
  match s with
  | EmptyString => Some acc
  | String c rest =>
      match digit c with
      | Some d => digits rest (acc * 10 + d)%N
      | None => None
      end
  end.

Definition array_index (k : string) : option N :=
  match k with
  | EmptyString => None
  | String c rest =>
      if Ascii.eqb c "0"%char then
        match rest with EmptyString => Some 0%N | _ => None end
      else
        match digits k 0%N with
        | Some n => if (n <? 2 ^ 32 - 1)%N then Some n else None
        | None => None
        end
  end.

Definition is_string_key (k : string) : bool :=
  match array_index k with Some _ => false | None => true end.

Section Properties.
Context {V : Type}.

(** [o[k]], for a key [k] that is an own property of [o] or [ordinary]. *)
Fixpoint get (o : list (string * V)) (k : string) : option V :=
  match o with
  | [] => None
  | (k', v) :: rest => if String.eqb k' k then Some v else get rest k
  end.

(** The own data property [k] of [o] is given the value [v]: overwritten in
    place, or created after the others. *)
Fixpoint define (o : list (string * V)) (k : string) (v : V) : list (string * V) :=
  match o with
  | [] => [(k, v)]
  | (k', v') :: rest =>
      if String.eqb k' k then (k', v) :: rest else (k', v') :: define rest k v
  end.

(** [o[k] = v], where [v] is an object.  The key ["__proto__"] reaches the
    accessor inherited from [Object.prototype]: the assignment makes [v]
    the prototype of [o] and creates no own property.  Every other key
    names a data property, inherited or not, and becomes an own property. *)
Definition set (o : list (string * V)) (k : string) (v : V) : list (string * V) :=
  if String.eqb k "__proto__" then o else define o k v.

Definition index_le (a b : N * (string * V)) : bool := (fst a <=? fst b)%N.

Fixpoint indexed (o : list (string * V)) : list (N * (string * V)) :=
  match o with
  | [] => []
  | p :: rest =>
      match array_index (fst p) with
      | Some n => (n, p) :: indexed rest
      | None => indexed rest
      end
  end.

Definition index_props (o : list (string * V)) : list (string * V) :=
  List.map snd (StableSort.sort index_le (indexed o)).

Definition string_props (o : list (string * V)) : list (string * V) :=
  List.filter (fun p => is_string_key (fst p)) o.

(** The properties in the order [for (const k in o)] visits them. *)
Definition for_in (o : list (string * V)) : list (string * V) :=
  index_props o ++ string_props o.

(** [Object.keys(o).length] *)
Definition keys_length (o : list (string * V)) : nat := length o.

End Properties.
End JsObject.

(** ** The cache artifacts on disk *)

(** The parsed content of [<category>_features.json].  A field that is
    absent (or otherwise falsy) is [None]; a blob that is [null] is [None]. *)
Record Artifact := mkArtifact {
  template_names : option (list string);
  descriptors_list : option (list (option JsString))
}.

(** What the loader finds under a file name of the cache directory. *)
Inductive File :=
| ENOENT                 (* [fs.access] rejects with code ENOENT *)
| EACCES                 (* [fs.access] rejects with another code *)
| NotJson                (* the file is read, [JSON.parse] throws *)
| Json (a : Artifact).   (* the file is read and parsed *)

Definition FileSystem := string -> File.

(** ** The process state: the cache and the trace of counted effects *)

Inductive Event :=
| FsAccess (path : string)
| FsReadFile (path : string)
| KnnMatch (templateName : string).

Record State := mkState {
  templateFeatures : gmap string (list (string * Mat));
  trace : list Event
}.

(** Lines 47-53. *)
Definition initialTemplateFeatures : gmap string (list (string * Mat)) :=
  <["summon/party_main" := []]>
  (<["summon/party_sub" := []]>
  (<["weapon/main" := []]>
  (<["weapon/normal" := []]>
  (<["chara" := []]> ∅)))).

Definition initialState : State := mkState initialTemplateFeatures [].

Definition emit (e : Event) (st : State) : State :=
  mkState (templateFeatures st) (trace st ++ [e]).

Definition is_read (e : Event) : bool :=
  match e with FsReadFile _ => true | _ => false end.

Definition is_knn (e : Event) : bool :=
  match e with KnnMatch _ => true | _ => false end.

(** The artifact reads recorded in a trace. *)
Definition reads (t : list Event) : list Event := List.filter is_read t.

(** The comparisons recorded in a trace. *)
Definition comparisons (t : list Event) : list Event := List.filter is_knn t.

(** ** The cache loader *)

(** [templateFeatures[c] && Object.keys(templateFeatures[c]).length > 0] *)
Definition has_features (tf : gmap string (list (string * Mat))) (c : string) : bool :=
  match tf !! c with
  | Some o => (0 <? JsObject.keys_length o)%nat
  | None => false
  end.

(** A string is truthy when it is not empty; [null] is falsy. *)
Definition truthy (desStr : option JsString) : bool :=
  match desStr with
  | Some (_ :: _) => true
  | _ => false
  end.

(** One iteration of the loop of lines 93-114 on the category's object. *)
Definition load_entry (o : list (string * Mat)) (name : string)
    (desStr : option JsString) : list (string * Mat) :=
  match desStr with
  | Some s =>
      if truthy desStr then
        match deserializeDescriptors s with
        | Ok desMat =>
            if negb (mat_empty desMat) then JsObject.set o name desMat else o
        | Throw _ => o
        end
      else o
  | None => o
  end.

Fixpoint load_entries (templateNames : list string)
    (serializedDescriptors : list (option JsString))
    (o : list (string * Mat)) : list (string * Mat) :=
  match templateNames, serializedDescriptors with
  | name :: names, desStr :: blobs =>
      load_entries names blobs (load_entry o name desStr)
  | _, _ => o
  end.

Definition cacheFileName (equipmentType : string) : string :=
  equipmentType +:+ "_features.json".

(** Lines 56-128. *)
Definition loadFeaturesFromCache (fs : FileSystem) (equipmentType : string)
    (st : State) : State :=
  if has_features (templateFeatures st) equipmentType then st
  else
    let tf :=
      match templateFeatures st !! equipmentType with
      | Some _ => templateFeatures st
      | None => <[equipmentType := []]> (templateFeatures st)
      end in
    let path := cacheFileName equipmentType in
    let st1 := emit (FsAccess path) (mkState tf (trace st)) in
    match fs path with
    | ENOENT | EACCES => st1
    | NotJson => emit (FsReadFile path) st1
    | Json cachedData =>
        let st2 := emit (FsReadFile path) st1 in
        match template_names cachedData, descriptors_list cachedData with
        | Some templateNames, Some serializedDescriptors =>
            if negb (length templateNames =? length serializedDescriptors)%nat
            then st2
            else
              let o := default [] (tf !! equipmentType) in
              mkState
                (<[equipmentType :=
                     load_entries templateNames serializedDescriptors o]> tf)
                (trace st2)
        | _, _ => st2
        end
    end.

(** ** The matcher *)

(** An element of the result of [knnMatch]. *)
Record DMatch := mkDMatch {
  queryIdx : nat;
  trainIdx : nat;
  distance : Q
}.

(** An element of the result of [matchEquipment]. *)
Record Match := mkMatch {
  match_id : string;
  confidence : Z
}.

Definition Qlt_bool (a b : Q) : bool := negb (Qle_bool b a).

Definition ratioThresh : Q := 75 # 100.

(** Lines 225-231: the ratio test on the neighbours of one query row. *)
Definition good (matchVec : list DMatch) : bool :=
  match matchVec with
  | m :: n :: _ => Qlt_bool (distance m) (ratioThresh * distance n)
  | _ => false
  end.

(** Lines 221-232. *)
Definition goodMatchesCount (knnMatches : list (list DMatch)) : Z :=
  Z.of_nat (length (List.filter good knnMatches)).

(** [a.slice(0, end)]: a negative [end] counts from the end of the array. *)
Definition slice0 {A} (a : list A) (e : Z) : list A :=
  if (e <? 0)%Z then firstn (length a - Z.to_nat (- e)) a
  else firstn (Z.to_nat e) a.

(** The comparator of line 254, [b.confidence - a.confidence], puts [a]
    first when its confidence is not below that of [b]. *)
Definition by_confidence (a b : Match) : bool :=
  (confidence b <=? confidence a)%Z.

Section Matcher.

(** The norm of the brute-force matcher.  Its values are finite
    single-precision numbers, hence rationals, and the product with 0.75
    is exact in double precision.  The definitions are written for any
    norm; the one of the matcher that line 165 constructs is [NORM_L2],
    defined after this section. *)
Variable norm : Descriptor -> Descriptor -> Q.

(** [m.convertTo(dst, rtype)], which may throw. *)
Variable convertTo : Mat -> Z -> result Mat.

Definition by_distance (a b : DMatch) : bool := Qle_bool (distance a) (distance b).

Fixpoint candidates (i : nat) (q : Descriptor) (j : nat) (train : list Descriptor)
  : list DMatch :=
  match train with
  | [] => []
  | d :: rest => mkDMatch i j (norm q d) :: candidates i q (S j) rest
  end.

(** The [k] nearest rows of [train] to row [i] of the query, nearest first. *)
Definition nearest (k : nat) (train : list Descriptor) (i : nat) (q : Descriptor)
  : list DMatch :=
  firstn k (StableSort.sort by_distance (candidates i q 0 train)).

Fixpoint knn_rows (k : nat) (train : list Descriptor) (i : nat)
    (query : list Descriptor) : list (list DMatch) :=
  match query with
  | [] => []
  | q :: rest => nearest k train i q :: knn_rows k train (S i) rest
  end.

(** [bfMatcher.knnMatch(query, train, matches, k)]: throws when the two
    matrices differ in type or in width. *)
Definition knnMatch (query train : Mat) (k : nat) : result (list (list DMatch)) :=
  if negb (mat_type query =? mat_type train)%Z
     || negb (mat_cols query =? mat_cols train)%nat
  then Throw (mkError "Assertion failed")
  else Ok (knn_rows k (mat_data train) 0 (mat_data query)).

(** Lines 205-247: the loop over the templates in enumeration order.
    [matches] is the array being filled. *)
Fixpoint match_templates (query : Mat) (threshold : Z) (earlyReturn : bool)
    (templates : list (string * Mat)) (matches : list Match) (st : State)
  : list Match * State :=
  match templates with
  | [] => (matches, st)
  | (templateName, templateDes) :: rest =>
      if mat_empty templateDes then
        match_templates query threshold earlyReturn rest matches st
      else if negb (mat_type templateDes =? CV_8U)%Z then
        match_templates query threshold earlyReturn rest matches st
      else
        let st' := emit (KnnMatch templateName) st in
        match knnMatch query templateDes 2 with
        | Throw _ => match_templates query threshold earlyReturn rest matches st'
        | Ok knnMatches =>
            let count := goodMatchesCount knnMatches in
            if (threshold <=? count)%Z then
              let matches' := matches ++ [mkMatch templateName count] in
              if earlyReturn then (matches', st')
              else match_templates query threshold earlyReturn rest matches' st'
            else match_templates query threshold earlyReturn rest matches st'
        end
  end.

(** Lines 186-255: what [matchEquipment] does once the category has
    features. *)
Definition match_loaded (queryDescriptors : Mat) (equipmentType : string)
    (threshold top_n : Z) (earlyReturn : bool) (st : State)
  : list Match * State :=
  if mat_empty queryDescriptors then ([], st)
  else
    let typeTemplates := default [] (templateFeatures st !! equipmentType) in
    let converted :=
      if negb (mat_type queryDescriptors =? CV_8U)%Z
      then convertTo queryDescriptors CV_8U
      else Ok queryDescriptors in
    match converted with
    | Throw _ => ([], st)
    | Ok queryDescriptorsToUse =>
        let '(matches, st') :=
          match_templates queryDescriptorsToUse threshold earlyReturn
            (JsObject.for_in typeTemplates) [] st in
        (slice0 (StableSort.sort by_confidence matches) top_n, st')
    end.

(** Lines 164-256. *)
Definition matchEquipment (fs : FileSystem) (queryDescriptors : Mat)
    (equipmentType : string) (threshold top_n : Z) (earlyReturn : bool)
    (st : State) : list Match * State :=
  if negb (has_features (templateFeatures st) equipmentType) then
    let st1 := loadFeaturesFromCache fs equipmentType st in
    if negb (has_features (templateFeatures st1) equipmentType) then ([], st1)
    else match_loaded queryDescriptors equipmentType threshold top_n earlyReturn st1
  else match_loaded queryDescriptors equipmentType threshold top_n earlyReturn st.

End Matcher.

(** The norm of the matcher of line 165.  [new cv.BFMatcher()] is given no
    norm type, so the matcher uses its default, [NORM_L2]: the distance of
    two rows is the square root, rounded to single precision, of the sum of
    the squares of the differences of their elements.  (The sum is exact in
    single precision while it is below [2^24], as it is for rows of up to
    258 bytes.) *)
Fixpoint normL2Sqr (a b : Descriptor) : Z :=
  match a, b with
  | x :: a', y :: b' => ((Z.of_N x - Z.of_N y) ^ 2 + normL2Sqr a' b')%Z
  | _, _ => 0%Z
  end.

(** The square root of a positive integer below [2^48] in single precision:
    it is scaled by a power of 4 into the range where the integer part of
    its root has 24 bits, and the root is rounded to the nearest integer
    (it is never half-way between two). *)
Definition sqrt_single (s : Z) : Q :=
  if (s <=? 0)%Z then 0
  else
    let k := ((47 - Z.log2 s) / 2)%Z in
    let t := (s * 4 ^ k)%Z in
    let r := Z.sqrt t in
    let r' := if (r * r + r <? t)%Z then (r + 1)%Z else r in
    Qmake r' (Z.to_pos (2 ^ k)).

Definition NORM_L2 (a b : Descriptor) : Q := sqrt_single (normL2Sqr a b).

(** The distance that the specification names, for comparison with the
    one above: the Hamming distance ([NORM_HAMMING]), the number of
    differing bits.  The program does not select it. *)
Fixpoint popcount_pos (p : positive) : nat :=
  match p with
  | xH => 1
  | xO p' => popcount_pos p'
  | xI p' => S (popcount_pos p')
  end.

Definition popcount (n : N) : nat :=
  match n with N0 => 0 | Npos p => popcount_pos p end.

Fixpoint hamming_nat (a b : Descriptor) : nat :=
  match a, b with
  | x :: a', y :: b' => (popcount (N.lxor x y) + hamming_nat a' b')%nat
  | _, _ => 0%nat
  end.

Definition hamming (a b : Descriptor) : Q := inject_Z (Z.of_nat (hamming_nat a b)).

(** A conversion that always fails, for runs in which it is never called. *)
Definition no_convertTo (m : Mat) (rtype : Z) : result Mat :=
  Throw (mkError "convertTo").

(** ** Vocabulary of the properties *)

(** The matrix an artifact entry contributes to its category, if any:
    the blob is a non-empty string, it decodes, and the decoded collection
    is not empty. *)
Definition decodes_to (desStr : option JsString) (m : Mat) : Prop :=
  exists s, desStr = Some s /\ s <> [] /\
            deserializeDescriptors s = Ok m /\ mat_empty m = false.

(** The test of line 81. *)
Definition malformed (a : Artifact) : bool :=
  match template_names a, descriptors_list a with
  | Some templateNames, Some serializedDescriptors =>
      negb (length templateNames =? length serializedDescriptors)%nat
  | _, _ => true
  end.

(** The two ways a load fails: no artifact, or a malformed one. *)
Definition load_fails (fs : FileSystem) (c : string) : Prop :=
  fs (cacheFileName c) = ENOENT \/
  exists a, fs (cacheFileName c) = Json a /\ malformed a = true.

(** The object a load leaves for a category that had no features. *)
Definition loaded_object (fs : FileSystem) (c : string) : list (string * Mat) :=
  match fs (cacheFileName c) with
  | Json a =>
      match template_names a, descriptors_list a with
      | Some templateNames, Some serializedDescriptors =>
          if malformed a then []
          else load_entries templateNames serializedDescriptors []
      | _, _ => []
      end
  | _ => []
  end.

(** The effects of such a load. *)
Definition load_events (fs : FileSystem) (c : string) : list Event :=
  match fs (cacheFileName c) with
  | ENOENT | EACCES => [FsAccess (cacheFileName c)]
  | _ => [FsAccess (cacheFileName c); FsReadFile (cacheFileName c)]
  end.

(** [templateFeatures[c]] is [undefined]: the cache has no property [c] of
    its own and inherits none. *)
Definition unlisted (tf : gmap string (list (string * Mat))) (c : string) : Prop :=
  tf !! c = None /\ JsObject.ordinary c = true.

(** The template names of the artifact of a category, if there is one. *)
Definition artifact_names (fs : FileSystem) (c : string) : list string :=
  match fs (cacheFileName c) with
  | Json a => default [] (template_names a)
  | _ => []
  end.

(** The artifact of the category names no template ["__proto__"], so that
    loading it leaves the prototype of the category's object alone. *)
Definition plain_artifact (fs : FileSystem) (c : string) : Prop :=
  ~ In "__proto__" (artifact_names fs c).

Definition is_access (e : Event) : bool :=
  match e with FsAccess _ => true | _ => false end.

(** [n] successive calls of the loader for one category. *)
Fixpoint repeat_load (fs : FileSystem) (c : string) (n : nat) (st : State) : State :=
  match n with
  | O => st
  | S n' => repeat_load fs c n' (loadFeaturesFromCache fs c st)
  end.

(** The arguments of one call of [matchEquipment] on a given category. *)
Record Call := mkCall {
  call_query : Mat;
  call_threshold : Z;
  call_top_n : Z;
  call_earlyReturn : bool
}.

(** Successive calls of [matchEquipment] on one category, each completing
    before the next starts. *)
Fixpoint run_matches (norm : Descriptor -> Descriptor -> Q)
    (convertTo : Mat -> Z -> result Mat) (fs : FileSystem) (c : string)
    (calls : list Call) (st : State) : list (list Match) * State :=
  match calls with
  | [] => ([], st)
  | k :: rest =>
      let '(r, st') :=
        matchEquipment norm convertTo fs (call_query k) c (call_threshold k)
          (call_top_n k) (call_earlyReturn k) st in
      let '(rs, st'') := run_matches norm convertTo fs c rest st' in
      (r :: rs, st'')
  end.

(** The lazy-loading trigger of lines 169-171. *)
Definition ensureLoaded (fs : FileSystem) (c : string) (st : State) : State :=
  if negb (has_features (templateFeatures st) c)
  then loadFeaturesFromCache fs c st else st.

Section MatcherVocabulary.
Variable norm : Descriptor -> Descriptor -> Q.

(** [d1] and [d2] are the smallest and the second smallest of [ds]. *)
Definition nearest_two (ds : list Q) (d1 d2 : Q) : Prop :=
  exists rest, Permutation (d1 :: d2 :: rest) ds /\
               Forall (Qle d1) (d2 :: rest) /\ Forall (Qle d2) rest.

(** A query descriptor is a good match against the rows [train] of a
    template: its nearest distance is below 0.75 times its second nearest. *)
Definition good_match (q : Descriptor) (train : list Descriptor) : Prop :=
  exists d1 d2, nearest_two (List.map (norm q) train) d1 d2 /\
                (d1 < ratioThresh * d2)%Q.

Definition ratio_ok (ds : list Q) : bool :=
  match ds with
  | d1 :: d2 :: _ => Qlt_bool d1 (ratioThresh * d2)
  | _ => false
  end.

(** The ratio test decided on the sorted distances. *)
Definition ratio_test (q : Descriptor) (train : list Descriptor) : bool :=
  ratio_ok (StableSort.sort Qle_bool (List.map (norm q) train)).

(** The number of query descriptors that are good matches. *)
Definition confidence_of (query templateDes : Mat) : Z :=
  Z.of_nat (length (List.filter (fun q => ratio_test q (mat_data templateDes))
                                (mat_data query))).

(** The template passes the guards of lines 207-214. *)
Definition comparable (templateDes : Mat) : bool :=
  negb (mat_empty templateDes) && (mat_type templateDes =? CV_8U)%Z.

(** [knnMatch] accepts the pair. *)
Definition compatible (query templateDes : Mat) : bool :=
  (mat_type query =? mat_type templateDes)%Z
  && (mat_cols query =? mat_cols templateDes)%nat.

(** The template is compared and its confidence meets the threshold. *)
Definition passes (query : Mat) (threshold : Z) (t : string * Mat) : bool :=
  comparable (snd t) && compatible query (snd t)
  && (threshold <=? confidence_of query (snd t))%Z.

Definition to_match (query : Mat) (t : string * Mat) : Match :=
  mkMatch (fst t) (confidence_of query (snd t)).

(** The templates of a list that meet the threshold, in the order of the list. *)
Definition included (query : Mat) (threshold : Z) (templates : list (string * Mat))
  : list Match :=
  List.map (to_match query) (List.filter (passes query threshold) templates).

(** The part of an enumeration up to and including the first template that
    meets the threshold. *)
Fixpoint upto_first_pass (query : Mat) (threshold : Z)
    (templates : list (string * Mat)) : list (string * Mat) :=
  match templates with
  | [] => []
  | t :: rest =>
      if passes query threshold t then [t]
      else t :: upto_first_pass query threshold rest
  end.

(** The templates the loop reaches. *)
Definition examined (query : Mat) (threshold : Z) (earlyReturn : bool)
    (templates : list (string * Mat)) : list (string * Mat) :=
  if earlyReturn then upto_first_pass query threshold templates else templates.

(** The [knnMatch] calls of a loop that reaches the given templates. *)
Definition knn_events (templates : list (string * Mat)) : list Event :=
  List.map (fun t => KnnMatch (fst t)) (List.filter (fun t => comparable (snd t)) templates).

End MatcherVocabulary.

(** [d] is the square root of the integer [s] rounded to single precision:
    a fraction [r / 2^k] whose numerator has 24 significant bits and which
    is less than half a unit of its last place away from the root. *)
Definition single_sqrt (s : Z) (d : Q) : Prop :=
  exists r k : Z,
    d = Qmake r (Z.to_pos (2 ^ k)) /\ (0 <= k)%Z /\
    (2 ^ 23 <= r <= 2 ^ 24)%Z /\
    ((2 * r - 1) ^ 2 < 4 * (s * 4 ^ k) < (2 * r + 1) ^ 2)%Z.

(** ** Overlapping calls

    Calls of [matchEquipment] made for different requests interleave at the
    [await]s of lines 77, 78 and 171; between two of them a call runs
    without interruption.  A call in progress is at one of these points. *)
Inductive Task :=
| Fresh (k : Call)           (* not started *)
| AwaitAccess (k : Call)     (* suspended on [fs.access], line 77 *)
| AwaitReadFile (k : Call)   (* suspended on [fs.readFile], line 78 *)
| AwaitLoad (k : Call)       (* the load has settled, line 171 resumes *)
| Done (r : list Match).

Section Interleaving.
Variable norm : Descriptor -> Descriptor -> Q.
Variable convertTo : Mat -> Z -> result Mat.
Variable fs : FileSystem.
Variable c : string.

Definition finish (k : Call) (st : State) : Task * State :=
  let '(r, st') :=
    match_loaded norm convertTo (call_query k) c (call_threshold k)
      (call_top_n k) (call_earlyReturn k) st in
  (Done r, st').

(** The uninterrupted run of a call from one suspension point to the next. *)
Definition step_task (t : Task) (st : State) : Task * State :=
  match t with
  | Fresh k =>
      if negb (has_features (templateFeatures st) c) then
        if has_features (templateFeatures st) c then (AwaitLoad k, st)
        else
          let tf :=
            match templateFeatures st !! c with
            | Some _ => templateFeatures st
            | None => <[c := []]> (templateFeatures st)
            end in
          (AwaitAccess k, emit (FsAccess (cacheFileName c)) (mkState tf (trace st)))
      else finish k st
  | AwaitAccess k =>
      match fs (cacheFileName c) with
      | ENOENT | EACCES => (AwaitLoad k, st)
      | _ => (AwaitReadFile k, emit (FsReadFile (cacheFileName c)) st)
      end
  | AwaitReadFile k =>
      match fs (cacheFileName c) with
      | Json cachedData =>
          match template_names cachedData, descriptors_list cachedData with
          | Some templateNames, Some serializedDescriptors =>
              if negb (length templateNames =? length serializedDescriptors)%nat
              then (AwaitLoad k, st)
              else
                let o := default [] (templateFeatures st !! c) in
                (AwaitLoad k,
                 mkState
                   (<[c := load_entries templateNames serializedDescriptors o]>
                      (templateFeatures st))
                   (trace st))
          | _, _ => (AwaitLoad k, st)
          end
      | _ => (AwaitLoad k, st)
      end
  | AwaitLoad k =>
      if negb (has_features (templateFeatures st) c) then (Done [], st)
      else finish k st
  | Done r => (Done r, st)
  end.

(** The same on a pair, for iteration. *)
Definition step2 (p : Task * State) : Task * State :=
  step_task (fst p) (snd p).

(** The scheduler resumes the call at position [i]. *)
Definition resume (i : nat) (sys : list Task * State) : list Task * State :=
  match fst sys !! i with
  | Some t =>
      let '(t', st') := step_task t (snd sys) in (<[i := t']> (fst sys), st')
  | None => sys
  end.

Definition run_schedule (schedule : list nat) (sys : list Task * State)
  : list Task * State :=
  fold_left (fun sys i => resume i sys) schedule sys.

End Interleaving.

(** ** The request handler *)

(** The value of a field of the request body, as far as the handler
    inspects it. *)
Inductive JsValue :=
| JUndefined
| JNull
| JBool (b : bool)
| JNumber (n : Z)
| JString (s : string).

(** The request body after [express.json()], by what the handler observes
    of it.  [contents] is [None] when the field is missing or not an array;
    its elements are taken to be strings, as encoded blobs are.  [text] is
    the outcome of the conversion to a string in the template literal of
    line 268, which throws for a body such as [{"toString": 1}]. *)
Record Body := mkBody {
  contents : option (list JsString);
  earlyReturn_field : JsValue;
  text : result string
}.

(** One element of the response array: the matches of a blob, or
    [{ error: message }]. *)
Inductive Outcome :=
| Matches (topMatches : list Match)
| Failed (error : string).

Inductive Response :=
| Status400 (error : string)
| Status500 (error : string)
| Status200 (results : list Outcome).

(** [v === "true"] *)
Definition is_true_string (v : JsValue) : bool :=
  match v with
  | JString s => String.eqb s "true"
  | _ => false
  end.

Section Handler.
Variable norm : Descriptor -> Descriptor -> Q.
Variable convertTo : Mat -> Z -> result Mat.
Variable fs : FileSystem.

(** Lines 281-295: the blobs of a request are processed one after the
    other; a failure is recorded at the position of its blob. *)
Fixpoint process_contents (equipmentType : string) (earlyReturn : bool)
    (cs : list JsString) (st : State) : list Outcome * State :=
  match cs with
  | [] => ([], st)
  | content :: rest =>
      match deserializeDescriptors content with
      | Throw (mkError message) =>
          let '(results, st') := process_contents equipmentType earlyReturn rest st in
          (Failed message :: results, st')
      | Ok queryDes =>
          let '(topMatches, st1) :=
            matchEquipment norm convertTo fs queryDes equipmentType 10 3
              earlyReturn st in
          let '(results, st2) := process_contents equipmentType earlyReturn rest st1 in
          (Matches topMatches :: results, st2)
      end
  end.

(** Line 268: the answer to a body without an array of blobs.  The message
    embeds the body converted to a string; when the conversion throws, the
    handler's outer [catch] (lines 297-300) answers instead. *)
Definition invalid_body (reqBody : option Body) : Response :=
  let expecting := "Invalid request body. Expecting { contents: [base64string] } " in
  match reqBody with
  | None => Status400 (expecting +:+ "undefined")
  | Some body =>
      match text body with
      | Ok s => Status400 (expecting +:+ s)
      | Throw (mkError message) =>
          Status500 (if String.eqb message "" then "Internal server error"
                     else message)
      end
  end.

(** Lines 260-301, once [openCvLoaded()] has resolved. *)
Definition handleDetectRequest (reqBody : option Body) (equipmentType : string)
    (st : State) : Response * State :=
  match reqBody with
  | None => (invalid_body reqBody, st)
  | Some body =>
      match contents body with
      | None => (invalid_body reqBody, st)
      | Some cs =>
          let earlyReturn := is_true_string (earlyReturn_field body) in
          if (length cs =? 0)%nat then (Status200 [], st)
          else
            let '(results, st') :=
              process_contents equipmentType earlyReturn cs st in
            (Status200 results, st')
      end
  end.

End Handler.


(** ** Further vocabulary *)

(** A matrix as the codec builds it from at least one descriptor. *)
Definition descriptors (m : Mat) : Prop :=
  mat_type m = CV_8U /\ mat_cols m = descriptorSize /\ mat_data m <> [] /\
  Forall (fun d => length d = descriptorSize) (mat_data m).

(** A category object as the loader fills it. *)
Definition well_loaded (o : list (string * Mat)) : Prop :=
  List.NoDup (List.map fst o) /\ Forall (fun p => descriptors (snd p)) o.

Definition cache_wf (tf : gmap string (list (string * Mat))) : Prop :=
  forall c o, tf !! c = Some o -> well_loaded o.

(** The confidence of a match reaches a threshold. *)
Definition at_least (threshold : Z) (m : Match) : bool :=
  (threshold <=? confidence m)%Z.

(** The file-system events of a trace. *)
Definition file_events (t : list Event) : list Event :=
  List.filter (fun e => negb (is_knn e)) t.

(** The calls of a task list that may still read the artifact. *)
Definition may_read (t : Task) : nat :=
  match t with
  | Fresh _ | AwaitAccess _ => 1
  | _ => 0
  end.

Definition pending (tasks : list Task) : nat :=
  list_sum (List.map may_read tasks).

(** The schedule that runs [n] calls one after the other, from position
    [i] on: each is resumed four times. *)
Fixpoint serial (i n : nat) : list nat :=
  match n with
  | O => []
  | S n' => [i; i; i; i] ++ serial (S i) n'
  end.

(** The matrix that the loop of [matchEquipment] compares with the
    templates: none for an empty query or a failed conversion (lines
    181-203). *)
Definition effective_query (convertTo : Mat -> Z -> result Mat) (query : Mat)
  : option Mat :=
  if mat_empty query then None
  else if negb (mat_type query =? CV_8U)%Z then
    match convertTo query CV_8U with
    | Ok converted => Some converted
    | Throw _ => None
    end
  else Some query.

(** The standard base64 text of a byte sequence (RFC 4648, section 4). *)
Module Base64Text.

Definition alphabet (v : N) : ascii :=
  (if v <? 26 then ascii_of_N (v + 65)
   else if v <? 52 then ascii_of_N (v + 71)
   else if v <? 62 then ascii_of_N (v - 4)
   else if v =? 62 then "+"%char
   else "/"%char)%N.

Definition char0 (x : N) : ascii := alphabet (N.shiftr x 2).
Definition char1 (x y : N) : ascii :=
  alphabet (N.lor (N.shiftl (N.land x 3) 4) (N.shiftr y 4)).
Definition char2 (y z : N) : ascii :=
  alphabet (N.lor (N.shiftl (N.land y 15) 2) (N.shiftr z 6)).
Definition char3 (z : N) : ascii := alphabet (N.land z 63).

Fixpoint encode (bytes : list N) : string :=
  match bytes with
  | [] => EmptyString
  | [x] => String (char0 x) (String (char1 x 0) "==")
  | [x; y] => String (char0 x) (String (char1 x y) (String (char2 y 0) "="))
  | x :: y :: z :: rest =>
      String (char0 x) (String (char1 x y) (String (char2 y z)
        (String (char3 z) (encode rest))))
  end.

Definition is_byte (b : N) : bool := (b <? 256)%N.

(** The four sextets of a group of three bytes. *)
Definition sextet0 (x : N) : N := N.shiftr x 2.
Definition sextet1 (x y : N) : N := N.lor (N.shiftl (N.land x 3) 4) (N.shiftr y 4).
Definition sextet2 (y z : N) : N := N.lor (N.shiftl (N.land y 15) 2) (N.shiftr z 6).
Definition sextet3 (z : N) : N := N.land z 63.

(** A predicate holds of every number below [n]. *)
Definition forall_below (n : nat) (p : N -> bool) : bool :=
  forallb p (List.map N.of_nat (seq 0 n)).

Definition opt_eqb (a b : option N) : bool :=
  match a, b with
  | Some x, Some y => (x =? y)%N
  | None, None => true
  | _, _ => false
  end.

End Base64Text.

(** ** Sample data *)
Module Sample.

(** The encoding of one descriptor of 32 zero bytes. *)
Definition blob32 : JsString :=
  units "AAAAAAAAAAAAAAAAAAAAAAAAAAAAAAAAAAAAAAAAAAA=".

(** The same text with a character outside every base64 alphabet in front. *)
Definition noisy_blob : JsString :=
  units "!AAAAAAAAAAAAAAAAAAAAAAAAAAAAAAAAAAAAAAAAAAA=".

Definition zero32 : Mat := mkMat CV_8U 32 [repeat 0%N 32].

(** No artifact anywhere. *)
Definition fs_missing : FileSystem := fun _ => ENOENT.

(** An artifact for "chara" whose only entry has no blob. *)
Definition fs_unusable : FileSystem := fun path =>
  if String.eqb path "chara_features.json"
  then Json (mkArtifact (Some ["a"]) (Some [None]))
  else ENOENT.

(** An artifact for "chara" with two good entries, an entry of the wrong
    length, an entry without blob and an entry that decodes to nothing. *)
Definition chara_names : list string := ["3040001000"; "b"; "bad"; "nil"; "none"].
Definition chara_blobs : list (option JsString) :=
  [Some blob32; Some blob32; Some (units "QUJD"); None; Some (units "!")].
Definition chara_artifact : Artifact := mkArtifact (Some chara_names) (Some chara_blobs).

Definition fs_chara : FileSystem := fun path =>
  if String.eqb path "chara_features.json" then Json chara_artifact else ENOENT.

(** An artifact for "chara" whose only entry is one descriptor under the
    name "__proto__", and the same with the name "proto". *)
Definition fs_proto : FileSystem := fun path =>
  if String.eqb path "chara_features.json"
  then Json (mkArtifact (Some ["__proto__"]) (Some [Some blob32]))
  else ENOENT.

Definition fs_single : FileSystem := fun path =>
  if String.eqb path "chara_features.json"
  then Json (mkArtifact (Some ["proto"]) (Some [Some blob32]))
  else ENOENT.

(** An artifact for "chara" whose two sequences differ in length. *)
Definition fs_unequal : FileSystem := fun path =>
  if String.eqb path "chara_features.json"
  then Json (mkArtifact (Some ["a"; "b"]) (Some [Some blob32]))
  else ENOENT.

(** One-byte descriptors for the matcher. *)
Definition mat1 (rows : list N) : Mat := mkMat CV_8U 1 (List.map (fun b => [b]) rows).

Definition state_of (c : string) (o : list (string * Mat)) : State :=
  mkState (<[c := o]> ∅) [].

(** One-byte rows 0 and 3 against templates of two rows.  A row 0 is a good
    match against {0, 255} and against {0, 6}; a row 3 is a good match
    against {0, 255} but not against {0, 6}, from whose rows it is equally
    far.

    Against twelve rows 0 and three rows 3, the template {0, 255} scores 15
    and the template {0, 6} scores 12. *)
Definition query15 : Mat := mat1 (repeat 0%N 12 ++ repeat 3%N 3).
Definition state_AB : State :=
  state_of "weapon/main" [("A", mat1 [0; 255]%N); ("B", mat1 [0; 6]%N)].

(** Against eleven rows 0 and nine rows 3, the template {0, 6} scores 11
    and the template {0, 255} scores 20. *)
Definition query20 : Mat := mat1 (repeat 0%N 11 ++ repeat 3%N 9).
Definition state_XY : State :=
  state_of "weapon/main" [("X", mat1 [0; 6]%N); ("Y", mat1 [0; 255]%N)].

(** Against nine rows 0 and one row 3, the template {0, 6} scores 9 and
    the template {0, 255} scores 10. *)
Definition query10 : Mat := mat1 (repeat 0%N 9 ++ [3%N]).
Definition state_nine : State :=
  state_of "weapon/main" [("nine", mat1 [0; 6]%N); ("ten", mat1 [0; 255]%N)].


(** A request with three blobs: a descriptor, text of the wrong length,
    and a descriptor again. *)
Definition body_mixed : Body :=
  mkBody (Some [blob32; units "QUJD"; blob32]) JUndefined (Ok "[object Object]").

(** A template with a single descriptor. *)
Definition one_row : Mat := mat1 [0%N].

(** A descriptor of 32 bytes, all zero but the first. *)
Definition wide (b : N) : Descriptor := b :: repeat 0%N 31.

(** An artifact for "priority/weapon/main" with one template of two
    descriptors, and a query of ten zero descriptors, each of which is a
    good match against it. *)
Definition fs_priority : FileSystem := fun path =>
  if String.eqb path "priority/weapon/main_features.json"
  then Json (mkArtifact (Some ["1040000000"])
               (Some [Some (units (Base64Text.encode (concat [wide 0; wide 255])))]))
  else ENOENT.

Definition query_zeros : Mat := mkMat CV_8U 32 (repeat (wide 0) 10).

(** A template of two descriptors.  From the zero descriptor the first
    differs in one bit and lies at Euclidean distance 4, the second differs
    in two bits and lies at Euclidean distance 3. *)
Definition close_rows : Mat := mkMat CV_8U 32 [wide 4; wide 3].
Definition state_close : State := state_of "weapon/main" [("t", close_rows)].

End Sample.

(** * Properties *)

(** ** Stable sorting *)
Module StableSortFacts.
Import StableSort.
Section Facts.
Context {A : Type} (le : A -> A -> bool).

Lemma insert_perm (x : A) (l : list A) : Permutation (insert le x l) (x :: l).
Proof.
  induction l as [|y l IH]; simpl.
  - apply Permutation_refl.
  - destruct (le x y).
    + apply Permutation_refl.
    + eapply perm_trans; [apply perm_skip, IH | apply perm_swap].
Qed.

Lemma sort_perm (l : list A) : Permutation (sort le l) l.
Proof.
  induction l as [|x l IH]; simpl.
  - apply perm_nil.
  - eapply perm_trans; [apply insert_perm | apply perm_skip, IH].
Qed.

Lemma sort_length (l : list A) : length (sort le l) = length l.
Proof. apply Permutation_length, sort_perm. Qed.

Lemma sort_In (l : list A) (x : A) : In x (sort le l) <-> In x l.
Proof.
  split; apply Permutation_in; [apply sort_perm | apply Permutation_sym, sort_perm].
Qed.

(** Elements that the order does not separate keep their relative order. *)
Lemma insert_filter (p : A -> bool) (x : A) (l : list A) :
  (forall a b, p a = true -> p b = true -> le a b = true) ->
  List.filter p (insert le x l) = List.filter p (x :: l).
Proof.
  intros Hp. induction l as [|y l IH]; simpl; [reflexivity|].
  destruct (le x y) eqn:Hxy; simpl; [reflexivity|].
  simpl in IH. rewrite IH.
  destruct (p x) eqn:Hx, (p y) eqn:Hy; try reflexivity.
  rewrite (Hp x y Hx Hy) in Hxy. discriminate.
Qed.

Lemma sort_stable (p : A -> bool) (l : list A) :
  (forall a b, p a = true -> p b = true -> le a b = true) ->
  List.filter p (sort le l) = List.filter p l.
Proof.
  intros Hp. induction l as [|x l IH]; simpl; [reflexivity|].
  rewrite (insert_filter p x (sort le l) Hp). simpl. now rewrite IH.
Qed.

Hypothesis le_total : forall a b, le a b = false -> le b a = true.
Hypothesis le_trans : forall a b c, le a b = true -> le b c = true -> le a c = true.

Lemma insert_sorted (x : A) (l : list A) :
  Sorted (lep le) l -> Sorted (lep le) (insert le x l).
Proof.
  induction l as [|y l IH]; simpl; intros Hs.
  - repeat constructor.
  - destruct (le x y) eqn:Hxy.
    + constructor; [assumption | constructor; exact Hxy].
    + inversion Hs as [|? ? Hs' Hhd]; subst.
      constructor; [apply IH, Hs'|].
      destruct l as [|z l]; simpl.
      * constructor. apply le_total, Hxy.
      * destruct (le x z); constructor.
        -- apply le_total, Hxy.
        -- inversion Hhd; assumption.
Qed.

Lemma sort_sorted (l : list A) : Sorted (lep le) (sort le l).
Proof.
  induction l as [|x l IH]; simpl; [constructor | apply insert_sorted, IH].
Qed.

Lemma sort_strongly_sorted (l : list A) : StronglySorted (lep le) (sort le l).
Proof.
  apply Sorted_StronglySorted; [|apply sort_sorted].
  intros a b c. apply le_trans.
Qed.

End Facts.
End StableSortFacts.

(** ** The codec *)

Lemma rows_of_length (rows cols : nat) (data : list N) :
  length (rows_of rows cols data) = rows.
Proof.
  revert data. induction rows as [|r IH]; intros data; simpl; [reflexivity|].
  now rewrite IH.
Qed.

Lemma rows_of_width (rows cols : nat) (data : list N) :
  length data = (rows * cols)%nat ->
  Forall (fun d => length d = cols) (rows_of rows cols data).
Proof.
  revert data. induction rows as [|r IH]; intros data Hlen; simpl.
  - constructor.
  - constructor.
    + rewrite length_firstn. simpl in Hlen. lia.
    + apply IH. rewrite length_skipn. simpl in Hlen. lia.
Qed.

Lemma rows_of_concat (rows cols : nat) (data : list N) :
  length data = (rows * cols)%nat ->
  concat (rows_of rows cols data) = data.
Proof.
  revert data. induction rows as [|r IH]; intros data Hlen; simpl.
  - destruct data; [reflexivity | discriminate].
  - rewrite IH.
    + apply firstn_skipn.
    + rewrite length_skipn. simpl in Hlen. lia.
Qed.

Lemma deserializeDescriptors_throw_iff (s : JsString) :
  is_throw (deserializeDescriptors s) = true <->
  (length (Base64.decode s) mod descriptorSize)%nat <> 0%nat.
Proof.
  unfold deserializeDescriptors.
  destruct (Nat.eqb_spec (length (Base64.decode s) mod descriptorSize) 0) as [E|E];
    cbn [negb].
  - destruct (_ =? 0)%nat; cbn [is_throw]; split;
      solve [discriminate | intros H; contradiction].
  - cbn [is_throw]. split; intros; [assumption | reflexivity].
Qed.

Lemma deserializeDescriptors_ok (s : JsString) (m : Mat) :
  deserializeDescriptors s = Ok m ->
  mat_type m = CV_8U /\
  mat_rows m = (length (Base64.decode s) / descriptorSize)%nat /\
  Forall (fun d => length d = descriptorSize) (mat_data m) /\
  concat (mat_data m) = Base64.decode s /\
  (mat_empty m = true <-> length (Base64.decode s) = 0%nat).
Proof.
  unfold deserializeDescriptors.
  destruct (Nat.eqb_spec (length (Base64.decode s) mod descriptorSize) 0) as [E|E];
    cbn [negb]; [|discriminate].
  pose proof (Nat.div_mod_eq (length (Base64.decode s)) descriptorSize) as Hdm.
  rewrite E, Nat.add_0_r in Hdm.
  destruct (Nat.eqb_spec (length (Base64.decode s) / descriptorSize) 0) as [Z0|NZ];
    intros [= <-].
  - rewrite Z0 in *. simpl in Hdm.
    destruct (Base64.decode s); [|discriminate].
    repeat split; auto.
  - unfold matFromArray, mat_rows, mat_empty, mat_rows; simpl.
    rewrite rows_of_length.
    assert (Hlen : length (Base64.decode s) =
                   (length (Base64.decode s) / descriptorSize * descriptorSize)%nat)
      by lia.
    repeat split.
    + apply rows_of_width, Hlen.
    + apply rows_of_concat, Hlen.
    + intros H. apply orb_true_iff in H as [H|H].
      * apply Nat.eqb_eq in H. contradiction.
      * discriminate.
    + intros H. rewrite H in NZ. now simpl in NZ.
Qed.

(** ** Objects as dictionaries *)
Module JsObjectFacts.
Import JsObject.
Section Facts.
Context {V : Type}.
Implicit Types (o : list (string * V)) (k : string) (v : V).


Lemma get_define_ne o k k' v : k <> k' -> get (define o k v) k' = get o k'.
Proof.
  intros Hne. induction o as [|[k0 v0] o IH]; simpl.
  - destruct (String.eqb_spec k k'); [contradiction | reflexivity].
  - destruct (String.eqb_spec k0 k) as [->|Hk]; simpl.
    + destruct (String.eqb_spec k k'); [contradiction | reflexivity].
    + destruct (String.eqb k0 k'); [reflexivity | exact IH].
Qed.

Lemma define_nonempty o k v : (0 < length (define o k v))%nat.
Proof. destruct o as [|[k' v'] o]; simpl; [lia|]. destruct (String.eqb k' k); simpl; lia. Qed.

Lemma define_keys o k v k' :
  In k' (List.map fst (define o k v)) <-> k' = k \/ In k' (List.map fst o).
Proof.
  induction o as [|[k0 v0] o IH]; simpl.
  - intuition congruence.
  - destruct (String.eqb_spec k0 k) as [->|Hk]; simpl; intuition congruence.
Qed.

Lemma define_keys_NoDup o k v :
  List.NoDup (List.map fst o) -> List.NoDup (List.map fst (define o k v)).
Proof.
  induction o as [|[k0 v0] o IH]; simpl; intros Hnd.
  - apply List.NoDup_cons; [intros [] | apply List.NoDup_nil].
  - inversion Hnd as [|? ? Hnotin Hnd']; subst.
    destruct (String.eqb_spec k0 k) as [->|Hk]; simpl.
    + constructor; assumption.
    + constructor; [|apply IH, Hnd'].
      rewrite define_keys. intros [->|Hin]; [now apply Hk | now apply Hnotin].
Qed.

(** The two cases of an assignment. *)
Lemma set_proto o v : set o "__proto__" v = o.
Proof. reflexivity. Qed.

Lemma set_define o k v : k <> "__proto__" -> set o k v = define o k v.
Proof. intros Hk. unfold set. now destruct (String.eqb_spec k "__proto__"). Qed.

Lemma set_cases o k v :
  (k = "__proto__" /\ set o k v = o) \/ (k <> "__proto__" /\ set o k v = define o k v).
Proof.
  unfold set. destruct (String.eqb_spec k "__proto__"); [left | right]; auto.
Qed.


Lemma get_set_ne o k k' v : k <> k' -> get (set o k v) k' = get o k'.
Proof.
  intros Hne. destruct (set_cases o k v) as [[_ ->]|[_ ->]]; [reflexivity|].
  now apply get_define_ne.
Qed.

Lemma set_nonempty o k v : k <> "__proto__" -> (0 < length (set o k v))%nat.
Proof. intros Hk. rewrite set_define by exact Hk. apply define_nonempty. Qed.

Lemma set_keeps_nonempty o k v :
  (0 < length o)%nat -> (0 < length (set o k v))%nat.
Proof.
  intros Ho. destruct (set_cases o k v) as [[_ ->]|[_ ->]]; [exact Ho|].
  apply define_nonempty.
Qed.

Lemma set_keys o k v k' :
  In k' (List.map fst (set o k v)) <->
  (k' = k /\ k <> "__proto__") \/ In k' (List.map fst o).
Proof.
  destruct (set_cases o k v) as [[Hk ->]|[Hk ->]].
  - intuition congruence.
  - rewrite define_keys. intuition congruence.
Qed.

Lemma set_keys_NoDup o k v :
  List.NoDup (List.map fst o) -> List.NoDup (List.map fst (set o k v)).
Proof.
  intros Hnd. destruct (set_cases o k v) as [[_ ->]|[_ ->]]; [exact Hnd|].
  now apply define_keys_NoDup.
Qed.

Lemma get_Some_In o k v : get o k = Some v -> In (k, v) o.
Proof.
  induction o as [|[k0 v0] o IH]; simpl; [discriminate|].
  destruct (String.eqb_spec k0 k) as [->|Hk].
  - intros [= ->]. now left.
  - intros H. right. apply IH, H.
Qed.

Lemma get_None_keys o k : get o k = None -> ~ In k (List.map fst o).
Proof.
  induction o as [|[k0 v0] o IH]; simpl; [tauto|].
  destruct (String.eqb_spec k0 k) as [->|Hk]; [discriminate|].
  intros H [E|Hin]; [now apply Hk | now apply (IH H)].
Qed.

Lemma In_get o k v : List.NoDup (List.map fst o) -> In (k, v) o -> get o k = Some v.
Proof.
  induction o as [|[k0 v0] o IH]; simpl; intros Hnd; [tauto|].
  inversion Hnd as [|? ? Hnotin Hnd']; subst.
  intros [[= -> ->]|Hin].
  - now rewrite String.eqb_refl.
  - destruct (String.eqb_spec k0 k) as [->|Hk]; [|apply IH; assumption].
    exfalso. apply Hnotin. apply (in_map fst) in Hin. exact Hin.
Qed.

Lemma indexed_split o :
  Permutation (List.map snd (indexed o) ++ string_props o) o.
Proof.
  unfold string_props, is_string_key.
  induction o as [|p o IH]; simpl; [constructor|].
  destruct (array_index (fst p)); simpl.
  - apply perm_skip, IH.
  - apply Permutation_sym, Permutation_cons_app, Permutation_sym, IH.
Qed.

(** Enumeration visits every own property exactly once. *)
Lemma for_in_perm o : Permutation (for_in o) o.
Proof.
  unfold for_in, index_props.
  eapply perm_trans; [|apply indexed_split].
  apply Permutation_app_tail, Permutation_map, StableSortFacts.sort_perm.
Qed.

Lemma for_in_In o (p : string * V) : In p (for_in o) <-> In p o.
Proof.
  split; apply Permutation_in; [apply for_in_perm | apply Permutation_sym, for_in_perm].
Qed.

Lemma for_in_nil : for_in (@nil (string * V)) = [].
Proof. reflexivity. Qed.

End Facts.
End JsObjectFacts.

(** ** The cache loader *)

Lemma has_features_false (tf : gmap string (list (string * Mat))) (c : string) :
  has_features tf c = false <-> tf !! c = None \/ tf !! c = Some [].
Proof.
  unfold has_features, JsObject.keys_length.
  destruct (tf !! c) as [[|p o]|]; simpl; split; intros H; auto;
    try discriminate; destruct H; discriminate.
Qed.

Lemma has_features_true (tf : gmap string (list (string * Mat))) (c : string) :
  has_features tf c = true <-> exists p o, tf !! c = Some (p :: o).
Proof.
  unfold has_features, JsObject.keys_length.
  destruct (tf !! c) as [[|p o]|]; simpl; split; intros H; eauto;
    try discriminate; destruct H as (? & ? & ?); discriminate.
Qed.

Lemma not_In_eqb (x : string) (l : list string) :
  existsb (String.eqb x) l = false -> ~ In x l.
Proof.
  intros H Hin. assert (Ht : existsb (String.eqb x) l = true); [|congruence].
  apply existsb_exists. exists x. split; [exact Hin | apply String.eqb_refl].
Qed.


Lemma load_entry_cases o name desStr :
  (exists m, decodes_to desStr m /\ load_entry o name desStr = JsObject.set o name m)
  \/ ((forall m, ~ decodes_to desStr m) /\ load_entry o name desStr = o).
Proof.
  unfold load_entry, truthy, decodes_to.
  destruct desStr as [s|].
  - destruct s as [|u s].
    + right. split; [|reflexivity]. intros m (s' & [= <-] & Hne & _). now apply Hne.
    + destruct (deserializeDescriptors (u :: s)) as [m|e] eqn:Hd.
      * destruct (mat_empty m) eqn:He; simpl.
        -- right. split; [|reflexivity].
           intros m' (s' & [= <-] & _ & Hd' & He'). congruence.
        -- left. exists m. split; [|reflexivity]. exists (u :: s).
           repeat split; auto.
      * right. split; [|reflexivity].
        intros m' (s' & [= <-] & _ & Hd' & _). congruence.
  - right. split; [|reflexivity]. intros m (s' & [=] & _).
Qed.

Lemma decodes_to_unique desStr m m' :
  decodes_to desStr m -> decodes_to desStr m' -> m = m'.
Proof.
  intros (s & -> & _ & Hd & _) (s' & [= <-] & _ & Hd' & _). congruence.
Qed.






(** An entry named ["__proto__"] never becomes a property. *)
Lemma load_entries_proto names blobs o :
  JsObject.get (load_entries names blobs o) "__proto__" = JsObject.get o "__proto__".
Proof.
  revert blobs o. induction names as [|name names IH]; intros blobs o; simpl; [auto|].
  destruct blobs as [|desStr blobs]; [auto|].
  rewrite IH.
  destruct (load_entry_cases o name desStr) as [(m' & Hd & E)|[_ E]]; rewrite E; [|auto].
  destruct (JsObjectFacts.set_cases o name m') as [[_ ->]|[Hk _]]; [reflexivity|].
  now apply JsObjectFacts.get_set_ne.
Qed.

Lemma load_entries_nonempty names blobs o :
  (0 < length o)%nat -> (0 < length (load_entries names blobs o))%nat.
Proof.
  revert blobs o. induction names as [|name names IH]; intros blobs o Ho; simpl; [auto|].
  destruct blobs as [|desStr blobs]; [auto|]. apply IH.
  destruct (load_entry_cases o name desStr) as [(m' & Hd & E)|[_ E]]; rewrite E; [|auto].
  now apply JsObjectFacts.set_keeps_nonempty.
Qed.

(** The loop keeps the keys of the object distinct. *)
Lemma load_entries_keys_NoDup names blobs o :
  List.NoDup (List.map fst o) ->
  List.NoDup (List.map fst (load_entries names blobs o)).
Proof.
  revert blobs o. induction names as [|name names IH]; intros blobs o Ho; simpl; [auto|].
  destruct blobs as [|desStr blobs]; [auto|]. apply IH.
  destruct (load_entry_cases o name desStr) as [(m' & Hd & E)|[_ E]]; rewrite E; [|auto].
  now apply JsObjectFacts.set_keys_NoDup.
Qed.

(** A load that finds features already there does nothing. *)
Lemma load_when_loaded fs c st :
  has_features (templateFeatures st) c = true -> loadFeaturesFromCache fs c st = st.
Proof. unfold loadFeaturesFromCache. now intros ->. Qed.

(** A load for a category without features: the cache and the trace after it. *)
Lemma load_when_unloaded fs c st :
  has_features (templateFeatures st) c = false ->
  templateFeatures (loadFeaturesFromCache fs c st)
    = <[c := loaded_object fs c]> (templateFeatures st) /\
  trace (loadFeaturesFromCache fs c st) = trace st ++ load_events fs c.
Proof.
  intros Hf. unfold loadFeaturesFromCache, loaded_object, load_events, malformed.
  rewrite Hf. apply has_features_false in Hf.
  assert (Htf : (match templateFeatures st !! c with
                 | Some _ => templateFeatures st
                 | None => <[c := []]> (templateFeatures st)
                 end) = <[c := []]> (templateFeatures st)).
  { destruct Hf as [-> | Hc]; [reflexivity|]. rewrite Hc. symmetry. now apply insert_id. }
  rewrite Htf. clear Htf.
  destruct (fs (cacheFileName c)) as [| | |a]; simpl; try (split; [reflexivity|]);
    try (now rewrite <- ?app_assoc).
  destruct (template_names a) as [names|], (descriptors_list a) as [blobs|]; simpl;
    try (split; [reflexivity | now rewrite <- app_assoc]).
  destruct (length names =? length blobs)%nat; simpl.
  - rewrite lookup_insert_eq. simpl. rewrite insert_insert_eq.
    split; [reflexivity | now rewrite <- app_assoc].
  - split; [reflexivity | now rewrite <- app_assoc].
Qed.

Lemma load_lookup_unloaded fs c st :
  has_features (templateFeatures st) c = false ->
  templateFeatures (loadFeaturesFromCache fs c st) !! c = Some (loaded_object fs c).
Proof.
  intros Hf. destruct (load_when_unloaded fs c st Hf) as [-> _].
  apply lookup_insert_eq.
Qed.

Lemma load_fails_object fs c : load_fails fs c -> loaded_object fs c = [].
Proof.
  unfold load_fails, loaded_object.
  intros [-> | (a & -> & Hm)]; [reflexivity|].
  destruct (template_names a), (descriptors_list a); try reflexivity.
  now rewrite Hm.
Qed.

Lemma reads_app (t u : list Event) : reads (t ++ u) = reads t ++ reads u.
Proof. apply List.filter_app. Qed.

Lemma comparisons_app (t u : list Event) :
  comparisons (t ++ u) = comparisons t ++ comparisons u.
Proof. apply List.filter_app. Qed.

Lemma load_events_comparisons fs c : comparisons (load_events fs c) = [].
Proof. unfold load_events. now destruct (fs (cacheFileName c)). Qed.

Lemma load_comparisons fs c st :
  comparisons (trace (loadFeaturesFromCache fs c st)) = comparisons (trace st).
Proof.
  destruct (has_features (templateFeatures st) c) eqn:Hf.
  - now rewrite load_when_loaded.
  - destruct (load_when_unloaded fs c st Hf) as [_ ->].
    now rewrite comparisons_app, load_events_comparisons, app_nil_r.
Qed.

(** ** The matcher *)

Lemma ensureLoaded_load fs c st :
  ensureLoaded fs c st = loadFeaturesFromCache fs c st.
Proof.
  unfold ensureLoaded. destruct (has_features (templateFeatures st) c) eqn:Hf; simpl.
  - now rewrite load_when_loaded.
  - reflexivity.
Qed.

Lemma Qle_bool_total (a b : Q) : Qle_bool a b = false -> Qle_bool b a = true.
Proof.
  intros H. apply Qle_bool_iff.
  destruct (Qlt_le_dec b a) as [Hlt|Hle].
  - now apply Qlt_le_weak.
  - apply Qle_bool_iff in Hle. congruence.
Qed.

Lemma Qle_bool_trans (a b c : Q) :
  Qle_bool a b = true -> Qle_bool b c = true -> Qle_bool a c = true.
Proof. rewrite !Qle_bool_iff. apply Qle_trans. Qed.

Lemma Qlt_bool_iff (a b : Q) : Qlt_bool a b = true <-> (a < b)%Q.
Proof.
  unfold Qlt_bool. rewrite negb_true_iff. split.
  - intros H. apply Qnot_le_lt. intros Hle. apply Qle_bool_iff in Hle. congruence.
  - intros H. destruct (Qle_bool b a) eqn:E; [|reflexivity].
    apply Qle_bool_iff in E. exfalso. now apply (Qlt_not_le a b).
Qed.

Lemma sorted_distances_spec (ds : list Q) :
  Permutation (StableSort.sort Qle_bool ds) ds /\
  StronglySorted Qle (StableSort.sort Qle_bool ds).
Proof.
  split; [apply StableSortFacts.sort_perm|].
  pose proof (StableSortFacts.sort_strongly_sorted Qle_bool Qle_bool_total
                Qle_bool_trans ds) as H.
  induction H as [|x l Hs IH Hf]; constructor; [exact IH|].
  eapply List.Forall_impl; [|exact Hf]. intros y Hy. now apply Qle_bool_iff.
Qed.

Lemma filter_length_perm {A} (p : A -> bool) (l l' : list A) :
  Permutation l l' -> length (List.filter p l) = length (List.filter p l').
Proof.
  induction 1 as [|x l l' _ IH|x y l|l l' l'' _ IH1 _ IH2]; simpl.
  - reflexivity.
  - destruct (p x); simpl; now rewrite IH.
  - destruct (p x), (p y); reflexivity.
  - now rewrite IH1.
Qed.

(** Two lists that are permutations of each other have the same smallest
    and second smallest elements, up to equality of rationals. *)
Lemma nearest_two_unique (l l' : list Q) (d1 d2 s1 s2 : Q) (r r' : list Q) :
  l = d1 :: d2 :: r -> l' = s1 :: s2 :: r' -> Permutation l l' ->
  Forall (Qle d1) (d2 :: r) -> Forall (Qle d2) r ->
  Forall (Qle s1) (s2 :: r') -> Forall (Qle s2) r' ->
  (d2 <= s2)%Q.
Proof.
  intros -> -> Hperm Hd1 Hd2 Hs1 Hs2.
  destruct (Qlt_le_dec s2 d2) as [Hlt|Hle]; [exfalso|exact Hle].
  pose proof (filter_length_perm (fun y => Qlt_bool y d2) _ _ Hperm) as Hc.
  simpl in Hc.
  assert (Hs1lt : Qlt_bool s1 d2 = true).
  { apply Qlt_bool_iff. eapply Qle_lt_trans; [|exact Hlt]. now inversion Hs1. }
  assert (Hs2lt : Qlt_bool s2 d2 = true) by now apply Qlt_bool_iff.
  assert (Hd2n : Qlt_bool d2 d2 = false).
  { destruct (Qlt_bool d2 d2) eqn:E; [|reflexivity].
    apply Qlt_bool_iff in E. exfalso. now apply (Qlt_irrefl d2). }
  assert (Hr : List.filter (fun y => Qlt_bool y d2) r = []).
  { clear -Hd2. induction Hd2 as [|x r Hx _ IH]; simpl; [reflexivity|].
    destruct (Qlt_bool x d2) eqn:E; [|exact IH].
    apply Qlt_bool_iff in E. exfalso. now apply (Qlt_not_le x d2). }
  rewrite Hs1lt, Hs2lt, Hd2n, Hr in Hc. simpl in Hc.
  destruct (Qlt_bool d1 d2); simpl in Hc; lia.
Qed.

Lemma ratio_ok_iff (ds : list Q) :
  ratio_ok (StableSort.sort Qle_bool ds) = true <->
  exists d1 d2, nearest_two ds d1 d2 /\ (d1 < ratioThresh * d2)%Q.
Proof.
  destruct (sorted_distances_spec ds) as [Hperm Hsorted].
  split.
  - destruct (StableSort.sort Qle_bool ds) as [|s1 [|s2 r]]; simpl; try discriminate.
    intros H. apply Qlt_bool_iff in H. exists s1, s2. split; [|exact H].
    exists r. split; [exact Hperm|].
    inversion Hsorted as [|? ? Hs' Hf1]; subst.
    inversion Hs' as [|? ? _ Hf2]; subst. auto.
  - intros (d1 & d2 & (r & Hp & Hd1 & Hd2) & Hlt).
    assert (Hp' : Permutation (d1 :: d2 :: r) (StableSort.sort Qle_bool ds))
      by (eapply perm_trans; [exact Hp | apply Permutation_sym, Hperm]).
    destruct (StableSort.sort Qle_bool ds) as [|s1 [|s2 r']].
    + apply Permutation_length in Hp'. discriminate.
    + apply Permutation_length in Hp'. discriminate.
    + simpl. apply Qlt_bool_iff.
      inversion Hsorted as [|? ? Hs' Hs1]; subst.
      inversion Hs' as [|? ? _ Hs2]; subst.
      assert (H1 : (s1 <= d1)%Q).
      { assert (Hin : In d1 (s1 :: s2 :: r'))
          by (eapply Permutation_in; [exact Hp' | now left]).
        destruct Hin as [->|Hin]; [apply Qle_refl|].
        rewrite List.Forall_forall in Hs1. now apply Hs1. }
      assert (H2 : (d2 <= s2)%Q)
        by (eapply (nearest_two_unique _ _ d1 d2 s1 s2 r r'); eauto).
      eapply Qle_lt_trans; [exact H1|].
      eapply Qlt_le_trans; [exact Hlt|].
      apply Qmult_le_l; [reflexivity | exact H2].
Qed.

Lemma sort_map {A B} (f : A -> B) (le : B -> B -> bool) (l : list A) :
  List.map f (StableSort.sort (fun a b => le (f a) (f b)) l)
  = StableSort.sort le (List.map f l).
Proof.
  induction l as [|x l IH]; simpl; [reflexivity|].
  rewrite <- IH. generalize (StableSort.sort (fun a b => le (f a) (f b)) l).
  intros s. induction s as [|y s IHs]; simpl; [reflexivity|].
  destruct (le (f x) (f y)); simpl; [reflexivity | now rewrite IHs].
Qed.

Section MatcherFacts.
Variable norm : Descriptor -> Descriptor -> Q.
Variable convertTo : Mat -> Z -> result Mat.

Lemma candidates_distances i q j train :
  List.map distance (candidates norm i q j train) = List.map (norm q) train.
Proof.
  revert j. induction train as [|d train IH]; intros j; simpl; [reflexivity|].
  now rewrite IH.
Qed.

Lemma good_ratio_ok (matchVec : list DMatch) :
  good matchVec = ratio_ok (List.map distance matchVec).
Proof. destruct matchVec as [|m [|n l]]; reflexivity. Qed.

Lemma ratio_ok_firstn (ds : list Q) : ratio_ok (firstn 2 ds) = ratio_ok ds.
Proof. destruct ds as [|d1 [|d2 l]]; reflexivity. Qed.

(** The ratio test of the loop does not depend on the row indices. *)
Lemma good_nearest train i q :
  good (nearest norm 2 train i q) = ratio_test norm q train.
Proof.
  unfold nearest, ratio_test.
  rewrite good_ratio_ok, <- List.firstn_map, ratio_ok_firstn.
  unfold by_distance. now rewrite sort_map, candidates_distances.
Qed.

Lemma knn_rows_filter train i rows :
  length (List.filter good (knn_rows norm 2 train i rows))
  = length (List.filter (fun q => ratio_test norm q train) rows).
Proof.
  revert i. induction rows as [|q rows IH]; intros i; simpl; [reflexivity|].
  rewrite good_nearest. destruct (ratio_test norm q train); simpl; now rewrite IH.
Qed.

Lemma knnMatch_spec query templateDes :
  knnMatch norm query templateDes 2 =
  if compatible query templateDes
  then Ok (knn_rows norm 2 (mat_data templateDes) 0 (mat_data query))
  else Throw (mkError "Assertion failed").
Proof.
  unfold knnMatch, compatible.
  destruct (mat_type query =? mat_type templateDes)%Z,
           (mat_cols query =? mat_cols templateDes)%nat; reflexivity.
Qed.

Lemma count_confidence query templateDes :
  goodMatchesCount (knn_rows norm 2 (mat_data templateDes) 0 (mat_data query))
  = confidence_of norm query templateDes.
Proof. unfold goodMatchesCount, confidence_of. now rewrite knn_rows_filter. Qed.

Lemma examined_cons query threshold earlyReturn t rest :
  examined norm query threshold earlyReturn (t :: rest) =
  if passes norm query threshold t && earlyReturn then [t]
  else t :: examined norm query threshold earlyReturn rest.
Proof.
  unfold examined. destruct earlyReturn; simpl.
  - destruct (passes norm query threshold t); reflexivity.
  - now rewrite andb_false_r.
Qed.

Lemma included_cons query threshold t rest :
  included norm query threshold (t :: rest) =
  if passes norm query threshold t
  then to_match norm query t :: included norm query threshold rest
  else included norm query threshold rest.
Proof. unfold included. simpl. now destruct (passes norm query threshold t). Qed.

Lemma knn_events_cons t rest :
  knn_events (t :: rest) =
  if comparable (snd t) then KnnMatch (fst t) :: knn_events rest else knn_events rest.
Proof. unfold knn_events. simpl. now destruct (comparable (snd t)). Qed.

(** The loop: what it appends to [matches] and to the trace. *)
Lemma match_templates_spec query threshold earlyReturn templates matches st :
  match_templates norm query threshold earlyReturn templates matches st =
  (matches ++ included norm query threshold
                (examined norm query threshold earlyReturn templates),
   mkState (templateFeatures st)
     (trace st ++ knn_events (examined norm query threshold earlyReturn templates))).
Proof.
  revert matches st.
  induction templates as [|[templateName templateDes] rest IH]; intros matches st.
  - destruct st, earlyReturn; simpl; now rewrite !app_nil_r.
  - cbn [match_templates]. rewrite examined_cons.
    assert (Hpass : passes norm query threshold (templateName, templateDes)
                    = comparable templateDes && compatible query templateDes
                      && (threshold <=? confidence_of norm query templateDes)%Z)
      by reflexivity.
    assert (Hcomp : comparable templateDes
                    = negb (mat_empty templateDes) && (mat_type templateDes =? CV_8U)%Z)
      by reflexivity.
    destruct (mat_empty templateDes) eqn:He; cbn [negb andb] in Hcomp.
    { rewrite Hcomp in Hpass. cbn [andb] in Hpass. rewrite Hpass. cbn [andb].
      rewrite IH, included_cons, knn_events_cons, Hpass. cbn [andb snd].
      now rewrite Hcomp. }
    destruct (mat_type templateDes =? CV_8U)%Z eqn:Ht; cbn [negb].
    2:{ rewrite Hcomp in Hpass. cbn [andb] in Hpass. rewrite Hpass. cbn [andb].
        rewrite IH, included_cons, knn_events_cons, Hpass. cbn [andb snd].
        now rewrite Hcomp. }
    rewrite Hcomp in Hpass. cbn [andb] in Hpass.
    rewrite knnMatch_spec.
    destruct (compatible query templateDes) eqn:Hc; cbn [andb] in Hpass.
    2:{ rewrite Hpass. cbn [andb].
        rewrite IH, included_cons, knn_events_cons, Hpass. cbn [andb snd fst].
        rewrite Hcomp. unfold emit. cbn [templateFeatures trace].
        now rewrite <- app_assoc. }
    rewrite count_confidence.
    destruct (threshold <=? confidence_of norm query templateDes)%Z eqn:Hth;
      rewrite Hpass; cbn [andb].
    + destruct earlyReturn.
      * rewrite included_cons, knn_events_cons, Hpass. cbn [snd fst].
        rewrite Hcomp. reflexivity.
      * rewrite IH, included_cons, knn_events_cons, Hpass. cbn [snd fst].
        rewrite Hcomp. unfold emit, to_match. cbn [templateFeatures trace fst snd].
        now rewrite <- !app_assoc.
    + rewrite IH, included_cons, knn_events_cons, Hpass. cbn [snd fst].
      rewrite Hcomp. unfold emit. cbn [templateFeatures trace].
      now rewrite <- app_assoc.
Qed.

(** The reference set a call works with, and the whole call, for a query
    that is not empty and already of type [CV_8U]. *)
Lemma matchEquipment_spec fs query c threshold top_n earlyReturn st :
  mat_empty query = false -> mat_type query = CV_8U ->
  let st1 := ensureLoaded fs c st in
  let reached :=
    examined norm query threshold earlyReturn
      (JsObject.for_in (default [] (templateFeatures st1 !! c))) in
  matchEquipment norm convertTo fs query c threshold top_n earlyReturn st =
  (slice0 (StableSort.sort by_confidence (included norm query threshold reached)) top_n,
   mkState (templateFeatures st1) (trace st1 ++ knn_events reached)).
Proof.
  intros He Ht st1 reached. subst reached st1.
  unfold matchEquipment, ensureLoaded.
  destruct (has_features (templateFeatures st) c) eqn:Hf; cbn [negb].
  - unfold match_loaded. rewrite He, Ht. cbn. now rewrite match_templates_spec.
  - destruct (has_features (templateFeatures (loadFeaturesFromCache fs c st)) c) eqn:Hf';
      cbn [negb].
    + unfold match_loaded. rewrite He, Ht. cbn. now rewrite match_templates_spec.
    + rewrite load_lookup_unloaded in * by assumption.
      assert (Ho : loaded_object fs c = []).
      { apply has_features_false in Hf'. rewrite load_lookup_unloaded in Hf' by assumption.
        destruct Hf' as [Hf'|Hf']; congruence. }
      rewrite Ho. cbn [default from_option id].
      rewrite JsObjectFacts.for_in_nil.
      destruct (loadFeaturesFromCache fs c st) as [tf tr], earlyReturn; cbn;
        rewrite ?app_nil_r; unfold slice0; destruct (top_n <? 0)%Z;
        now rewrite List.firstn_nil.
Qed.

(** A call never changes the cache beyond what the load does. *)
Lemma matchEquipment_cache fs query c threshold top_n earlyReturn st :
  templateFeatures
    (snd (matchEquipment norm convertTo fs query c threshold top_n earlyReturn st))
  = templateFeatures (ensureLoaded fs c st).
Proof.
  unfold matchEquipment, ensureLoaded.
  assert (Hl : forall s, templateFeatures
             (snd (match_loaded norm convertTo query c threshold top_n earlyReturn s))
             = templateFeatures s).
  { intros s. unfold match_loaded.
    destruct (mat_empty query); [reflexivity|].
    destruct (if negb (mat_type query =? CV_8U)%Z then convertTo query CV_8U
              else Ok query) as [q'|]; [|reflexivity].
    now rewrite match_templates_spec. }
  destruct (has_features (templateFeatures st) c); cbn [negb]; [apply Hl|].
  destruct (has_features (templateFeatures (loadFeaturesFromCache fs c st)) c);
    cbn [negb]; [apply Hl | reflexivity].
Qed.

(** A call on a category that has no features after the load returns []
    and compares nothing. *)
Lemma matchEquipment_no_features fs query c threshold top_n earlyReturn st :
  has_features (templateFeatures (ensureLoaded fs c st)) c = false ->
  matchEquipment norm convertTo fs query c threshold top_n earlyReturn st
  = ([], ensureLoaded fs c st).
Proof.
  unfold matchEquipment, ensureLoaded.
  destruct (has_features (templateFeatures st) c) eqn:Hf; cbn [negb].
  - congruence.
  - now intros ->.
Qed.

(** The whole of [matchEquipment], for every query. *)
Lemma matchEquipment_general fs query c threshold top_n earlyReturn st :
  matchEquipment norm convertTo fs query c threshold top_n earlyReturn st =
  match effective_query convertTo query with
  | None => ([], ensureLoaded fs c st)
  | Some q =>
      let reached :=
        examined norm q threshold earlyReturn
          (JsObject.for_in
             (default [] (templateFeatures (ensureLoaded fs c st) !! c))) in
      (slice0 (StableSort.sort by_confidence (included norm q threshold reached))
         top_n,
       mkState (templateFeatures (ensureLoaded fs c st))
         (trace (ensureLoaded fs c st) ++ knn_events reached))
  end.
Proof.
  assert (Hnil : forall (q : Mat) (s : State),
             default [] (templateFeatures s !! c) = [] ->
             ([], s) =
             (slice0 (StableSort.sort by_confidence
                        (included norm q threshold
                           (examined norm q threshold earlyReturn
                              (JsObject.for_in
                                 (default [] (templateFeatures s !! c))))))
                top_n,
              mkState (templateFeatures s)
                (trace s ++ knn_events
                   (examined norm q threshold earlyReturn
                      (JsObject.for_in (default [] (templateFeatures s !! c))))))).
  { intros q s Ho. rewrite Ho, JsObjectFacts.for_in_nil.
    destruct s, earlyReturn; cbn; rewrite ?app_nil_r; unfold slice0;
      destruct (top_n <? 0)%Z; now rewrite List.firstn_nil. }
  assert (Hl : forall s,
             match_loaded norm convertTo query c threshold top_n earlyReturn s =
             match effective_query convertTo query with
             | None => ([], s)
             | Some q =>
                 (slice0 (StableSort.sort by_confidence
                            (included norm q threshold
                               (examined norm q threshold earlyReturn
                                  (JsObject.for_in
                                     (default [] (templateFeatures s !! c))))))
                    top_n,
                  mkState (templateFeatures s)
                    (trace s ++ knn_events
                       (examined norm q threshold earlyReturn
                          (JsObject.for_in
                             (default [] (templateFeatures s !! c))))))
             end).
  { intros s. unfold match_loaded, effective_query.
    destruct (mat_empty query); [reflexivity|].
    destruct (negb (mat_type query =? CV_8U)%Z).
    - destruct (convertTo query CV_8U); [|reflexivity].
      now rewrite match_templates_spec.
    - now rewrite match_templates_spec. }
  cbv zeta. unfold matchEquipment, ensureLoaded.
  destruct (has_features (templateFeatures st) c) eqn:Hf; cbn [negb]; [apply Hl|].
  destruct (has_features (templateFeatures (loadFeaturesFromCache fs c st)) c) eqn:Hf';
    cbn [negb]; [apply Hl|].
  destruct (effective_query convertTo query) as [q|]; [|reflexivity].
  apply Hnil. apply has_features_false in Hf' as [-> | ->]; reflexivity.
Qed.

End MatcherFacts.

(** * The claims *)

(** ** The codec *)

(** C5 (as amended): [deserializeDescriptors] fails exactly when the number
    of bytes that the lenient decoder extracts is not a multiple of 32; text
    that decodes to no byte yields the empty collection; otherwise the result
    is the sequence of the [length / 32] consecutive 32-byte descriptors of
    type [CV_8U].  Characters that make the text invalid base64 are skipped
    by the decoder and never cause a failure by themselves. *)
Theorem deserializeDescriptors_spec (s : JsString) :
  (is_throw (deserializeDescriptors s) = true <->
   (length (Base64.decode s) mod 32)%nat <> 0%nat) /\
  (length (Base64.decode s) = 0%nat -> deserializeDescriptors s = Ok new_Mat) /\
  (forall m, deserializeDescriptors s = Ok m ->
     mat_type m = CV_8U /\
     mat_rows m = (length (Base64.decode s) / 32)%nat /\
     Forall (fun d => length d = 32%nat) (mat_data m) /\
     concat (mat_data m) = Base64.decode s).
Proof.
  split; [apply deserializeDescriptors_throw_iff|]. split.
  - intros H. unfold deserializeDescriptors. now rewrite H.
  - intros m Hm. destruct (deserializeDescriptors_ok s m Hm) as (? & ? & ? & ? & _).
    auto.
Qed.

(** C5, counterexample: a text that is not valid base64 is decoded without
    failure, here into one descriptor. *)
Lemma deserializeDescriptors_accepts_invalid_text :
  ~ (is_throw (deserializeDescriptors Sample.noisy_blob) = true <->
     ((length (Base64.decode Sample.noisy_blob) mod 32)%nat <> 0%nat \/
      Base64.well_formed Sample.noisy_blob = false)).
Proof.
  intros [_ H].
  assert (Hok : deserializeDescriptors Sample.noisy_blob = Ok Sample.zero32)
    by (vm_compute; reflexivity).
  rewrite Hok in H. simpl in H.
  assert (Hf : false = true) by (apply H; right; vm_compute; reflexivity).
  discriminate Hf.
Qed.

(** ** The lazy cache *)

Lemma repeat_load_loaded fs c n st :
  has_features (templateFeatures st) c = true -> repeat_load fs c n st = st.
Proof.
  intros Hf. induction n as [|n IH]; simpl; [reflexivity|].
  now rewrite load_when_loaded.
Qed.

Lemma repeat_load_unusable fs c n st :
  has_features (templateFeatures st) c = false ->
  loaded_object fs c = [] ->
  has_features (templateFeatures (repeat_load fs c n st)) c = false /\
  length (List.filter is_access (trace (repeat_load fs c n st)))
    = (length (List.filter is_access (trace st)) + n)%nat.
Proof.
  intros Hf Ho. revert st Hf. induction n as [|n IH]; intros st Hf; simpl.
  - split; [exact Hf | lia].
  - destruct (load_when_unloaded fs c st Hf) as [Htf Htr].
    assert (Hf' : has_features (templateFeatures (loadFeaturesFromCache fs c st)) c
                  = false).
    { apply has_features_false. right. rewrite Htf, Ho. apply lookup_insert_eq. }
    destruct (IH _ Hf') as [H1 H2]. split; [exact H1|].
    rewrite H2, Htr, List.filter_app, length_app.
    unfold load_events. destruct (fs (cacheFileName c)); simpl; lia.
Qed.

Lemma loaded_object_read fs c :
  loaded_object fs c <> [] ->
  load_events fs c = [FsAccess (cacheFileName c); FsReadFile (cacheFileName c)].
Proof.
  unfold loaded_object, load_events.
  destruct (fs (cacheFileName c)); try congruence.
Qed.

(** C1 (as amended): for a category without features, if the first load
    yields at least one usable entry, then any number [n >= 1] of calls of
    the loader performs exactly one artifact read in total and leaves the
    same cache after each call.  If the first load yields no usable entry,
    the category stays without features and every further call consults the
    file system again. *)
Theorem ensureLoaded_idempotent (fs : FileSystem) (c : string) (st : State) :
  has_features (templateFeatures st) c = false ->
  (has_features (templateFeatures (loadFeaturesFromCache fs c st)) c = true ->
   forall n, (1 <= n)%nat ->
     templateFeatures (repeat_load fs c n st)
       = templateFeatures (loadFeaturesFromCache fs c st) /\
     reads (trace (repeat_load fs c n st))
       = reads (trace st) ++ [FsReadFile (cacheFileName c)]) /\
  (has_features (templateFeatures (loadFeaturesFromCache fs c st)) c = false ->
   forall n,
     has_features (templateFeatures (repeat_load fs c n st)) c = false /\
     length (List.filter is_access (trace (repeat_load fs c n st)))
       = (length (List.filter is_access (trace st)) + n)%nat).
Proof.
  intros Hf. destruct (load_when_unloaded fs c st Hf) as [Htf Htr]. split.
  - intros Hf' n Hn. destruct n as [|n]; [lia|]. simpl.
    rewrite repeat_load_loaded by exact Hf'. split; [reflexivity|].
    rewrite Htr, reads_app, loaded_object_read; [reflexivity|].
    intros Ho. apply has_features_true in Hf' as (p & o & Hl).
    rewrite Htf, Ho, lookup_insert_eq in Hl. discriminate.
  - intros Hf' n. apply repeat_load_unusable; [exact Hf|].
    apply has_features_false in Hf'. rewrite Htf, lookup_insert_eq in Hf'.
    destruct Hf' as [Hf'|Hf']; congruence.
Qed.

(** C1, witness: two good entries are loaded once, whatever the number of
    calls. *)
Lemma ensureLoaded_idempotent_witness :
  templateFeatures (repeat_load Sample.fs_chara "chara" 3 initialState)
    = templateFeatures (loadFeaturesFromCache Sample.fs_chara "chara" initialState) /\
  reads (trace (repeat_load Sample.fs_chara "chara" 3 initialState))
    = [FsReadFile "chara_features.json"].
Proof.
  apply (proj1 (ensureLoaded_idempotent Sample.fs_chara "chara" initialState
                  eq_refl) eq_refl 3%nat).
  lia.
Defined.

(** C1, counterexample: the artifact of "chara" has no usable entry; two
    calls of the loader read it twice. *)
Lemma reload_after_empty_load :
  ~ (length (reads (trace (repeat_load Sample.fs_unusable "chara" 2 initialState)))
     = 1%nat).
Proof. vm_compute. discriminate. Qed.

(** C8, evaluation of the code: the artifact of "chara" has a single entry,
    named ["__proto__"], whose blob decodes to one descriptor.  The entry
    is usable, yet the load leaves the category without any entry: the
    assignment of line 101 stores nothing under that name.  A match at
    threshold 0, which reports every stored template, reports nothing, and
    the next call reads the artifact again. *)
Theorem proto_named_entry_is_dropped :
  let st := loadFeaturesFromCache Sample.fs_proto "chara" initialState in
  decodes_to (Some Sample.blob32) Sample.zero32 /\
  reads (trace st) = [FsReadFile "chara_features.json"] /\
  templateFeatures st !! "chara" = Some [] /\
  fst (matchEquipment NORM_L2 no_convertTo Sample.fs_proto Sample.zero32 "chara"
         0 3 false initialState) = [] /\
  reads (trace (loadFeaturesFromCache Sample.fs_proto "chara" st))
    = [FsReadFile "chara_features.json"; FsReadFile "chara_features.json"].
Proof.
  cbv zeta. split; [|repeat split; vm_compute; reflexivity].
  exists Sample.blob32.
  split; [reflexivity|]. split; [discriminate|]. split; vm_compute; reflexivity.
Qed.

(** The same blob under another name is stored and reported. *)
Example named_entry_is_stored :
  List.map fst (default [] (templateFeatures
     (loadFeaturesFromCache Sample.fs_single "chara" initialState) !! "chara"))
    = ["proto"] /\
  fst (matchEquipment NORM_L2 no_convertTo Sample.fs_single Sample.zero32 "chara"
         0 3 false initialState) = [mkMatch "proto" 0].
Proof. split; vm_compute; reflexivity. Qed.

Example load_chara_keys :
  List.map fst (default [] (templateFeatures
     (loadFeaturesFromCache Sample.fs_chara "chara" initialState) !! "chara"))
  = ["3040001000"; "b"].
Proof. vm_compute. reflexivity. Qed.

Section CallSequences.
Variable norm : Descriptor -> Descriptor -> Q.
Variable convertTo : Mat -> Z -> result Mat.

Lemma ensureLoaded_unusable fs c st :
  has_features (templateFeatures st) c = false ->
  loaded_object fs c = [] ->
  has_features (templateFeatures (ensureLoaded fs c st)) c = false.
Proof.
  intros Hf Ho. rewrite ensureLoaded_load.
  apply has_features_false. right.
  rewrite load_lookup_unloaded by exact Hf. now rewrite Ho.
Qed.

Lemma run_matches_unusable fs c calls st :
  has_features (templateFeatures st) c = false ->
  loaded_object fs c = [] ->
  Forall (fun r => r = []) (fst (run_matches norm convertTo fs c calls st)).
Proof.
  intros Hf Ho. revert st Hf.
  induction calls as [|k calls IH]; intros st Hf; simpl; [constructor|].
  pose proof (ensureLoaded_unusable fs c st Hf Ho) as Hf'.
  rewrite (matchEquipment_no_features norm convertTo fs (call_query k) c
             (call_threshold k) (call_top_n k) (call_earlyReturn k) st Hf').
  specialize (IH _ Hf').
  destruct (run_matches norm convertTo fs c calls (ensureLoaded fs c st)) as [rs st''].
  simpl in *. constructor; [reflexivity | exact IH].
Qed.

(** C7: when the category has no features and its artifact is missing or
    malformed, the load returns normally and leaves the category with zero
    entries, and every later call of [matchEquipment] on that category, for
    any query and any parameters, returns []. *)
Theorem failed_load_matches_nothing (fs : FileSystem) (c : string) (st : State)
    (calls : list Call) :
  has_features (templateFeatures st) c = false ->
  load_fails fs c ->
  templateFeatures (loadFeaturesFromCache fs c st) !! c = Some [] /\
  Forall (fun r => r = [])
    (fst (run_matches norm convertTo fs c calls (loadFeaturesFromCache fs c st))).
Proof.
  intros Hf Hfail. pose proof (load_fails_object fs c Hfail) as Ho.
  assert (Hl : templateFeatures (loadFeaturesFromCache fs c st) !! c = Some [])
    by (rewrite load_lookup_unloaded by exact Hf; now rewrite Ho).
  split; [exact Hl|].
  apply run_matches_unusable; [|exact Ho].
  apply has_features_false. now right.
Qed.

(** C10: for a category for which the cache has no entry (and which is
    not the name of a property that every object inherits), whatever else
    the cache holds, [matchEquipment] does not fail.  It creates the entry;
    its first effect is the access to the category's own file; and the call
    is indistinguishable from the same call on a cache that lists the
    category with an empty object.  When the artifact names no template
    ["__proto__"], the entry then holds what the artifact yields and the
    match goes on as for any category: the result is the ranking, cut at
    [top_n], of the templates just loaded that meet the threshold, each
    template reached being compared once, and it is [] when no entry could
    be loaded. *)
Theorem first_use_of_unlisted_category (fs : FileSystem) (query : Mat) (c : string)
    (threshold top_n : Z) (earlyReturn : bool) (st : State) :
  unlisted (templateFeatures st) c ->
  let first :=
    matchEquipment norm convertTo fs query c threshold top_n earlyReturn st in
  let loaded :=
    mkState (<[c := loaded_object fs c]> (templateFeatures st))
      (trace st ++ load_events fs c) in
  is_Some (templateFeatures (snd first) !! c) /\
  (exists rest, trace (snd first) = trace st ++ FsAccess (cacheFileName c) :: rest) /\
  first
  = matchEquipment norm convertTo fs query c threshold top_n earlyReturn
      (mkState (<[c := []]> (templateFeatures st)) (trace st)) /\
  (plain_artifact fs c ->
   templateFeatures (snd first) !! c = Some (loaded_object fs c) /\
   first
   = match effective_query convertTo query with
     | None => ([], loaded)
     | Some q =>
         let reached :=
           examined norm q threshold earlyReturn
             (JsObject.for_in (loaded_object fs c)) in
         (slice0 (StableSort.sort by_confidence (included norm q threshold reached))
            top_n,
          mkState (templateFeatures loaded) (trace loaded ++ knn_events reached))
     end /\
   (loaded_object fs c = [] -> first = ([], loaded))).
Proof.
  intros [Hnone _] first loaded.
  assert (Hload : forall s,
            templateFeatures s !! c = None \/ templateFeatures s !! c = Some [] ->
            ensureLoaded fs c s
            = mkState (<[c := loaded_object fs c]> (templateFeatures s))
                (trace s ++ load_events fs c)).
  { intros s Hs. apply has_features_false in Hs.
    rewrite ensureLoaded_load.
    destruct (load_when_unloaded fs c s Hs) as [Htf Htr].
    destruct (loadFeaturesFromCache fs c s) as [tf tr]. cbn in Htf, Htr.
    now subst. }
  assert (Hfirst : first
    = match effective_query convertTo query with
      | None => ([], loaded)
      | Some q =>
          let reached :=
            examined norm q threshold earlyReturn
              (JsObject.for_in (loaded_object fs c)) in
          (slice0 (StableSort.sort by_confidence (included norm q threshold reached))
             top_n,
           mkState (templateFeatures loaded) (trace loaded ++ knn_events reached))
      end).
  { subst first. rewrite matchEquipment_general, (Hload st) by now left.
    fold loaded. cbn [templateFeatures loaded]. rewrite lookup_insert_eq.
    reflexivity. }
  assert (Hentry : templateFeatures (snd first) !! c = Some (loaded_object fs c)).
  { rewrite Hfirst.
    destruct (effective_query convertTo query); cbv zeta;
      cbn [snd templateFeatures loaded]; apply lookup_insert_eq. }
  assert (Hev : exists rest, load_events fs c = FsAccess (cacheFileName c) :: rest)
    by (unfold load_events; destruct (fs (cacheFileName c)); eauto).
  split; [|split; [|split; [|intros _; split; [exact Hentry|split; [exact Hfirst|]]]]].
  - rewrite Hentry. eauto.
  - destruct Hev as [rest Hev]. rewrite Hfirst.
    destruct (effective_query convertTo query) as [q|]; cbv zeta;
      cbn [snd trace loaded]; rewrite Hev.
    + eexists. rewrite <- app_assoc. cbn [app]. reflexivity.
    + eexists. reflexivity.
  - rewrite Hfirst, matchEquipment_general.
    rewrite (Hload (mkState (<[c := []]> (templateFeatures st)) (trace st)))
      by (right; apply lookup_insert_eq).
    cbn [templateFeatures trace]. rewrite insert_insert_eq. fold loaded.
    cbn [templateFeatures loaded]. rewrite lookup_insert_eq. reflexivity.
  - intros Ho. rewrite Hfirst.
    destruct (effective_query convertTo query) as [q|]; [|reflexivity].
    cbv zeta. rewrite Ho, JsObjectFacts.for_in_nil.
    destruct earlyReturn; cbn; rewrite app_nil_r; unfold slice0;
      destruct (top_n <? 0)%Z; now rewrite List.firstn_nil.
Qed.

(** C6: for an empty query, [matchEquipment] returns [] on every category
    and in every state, and adds no comparison to the trace. *)
Theorem empty_query_compares_nothing (fs : FileSystem) (query : Mat) (c : string)
    (threshold top_n : Z) (earlyReturn : bool) (st : State) :
  mat_empty query = true ->
  fst (matchEquipment norm convertTo fs query c threshold top_n earlyReturn st) = [] /\
  comparisons
    (trace (snd (matchEquipment norm convertTo fs query c threshold top_n
                   earlyReturn st)))
  = comparisons (trace st).
Proof.
  intros He. unfold matchEquipment, match_loaded. rewrite He.
  destruct (has_features (templateFeatures st) c); cbn [negb fst snd].
  - auto.
  - destruct (has_features (templateFeatures (loadFeaturesFromCache fs c st)) c);
      cbn [negb fst snd]; split; try reflexivity; apply load_comparisons.
Qed.

End CallSequences.

(** C7, witness: a missing artifact, and one whose two sequences differ in
    length. *)
Lemma failed_load_matches_nothing_witness :
  (templateFeatures (loadFeaturesFromCache Sample.fs_missing "chara" initialState)
     !! "chara" = Some [] /\
   Forall (fun r => r = [])
     (fst (run_matches NORM_L2 no_convertTo Sample.fs_missing "chara"
             [mkCall Sample.zero32 10 3 false; mkCall Sample.zero32 0 3 true]
             (loadFeaturesFromCache Sample.fs_missing "chara" initialState)))) /\
  (templateFeatures (loadFeaturesFromCache Sample.fs_unequal "chara" initialState)
     !! "chara" = Some [] /\
   Forall (fun r => r = [])
     (fst (run_matches NORM_L2 no_convertTo Sample.fs_unequal "chara"
             [mkCall Sample.zero32 10 3 false; mkCall Sample.zero32 0 3 true]
             (loadFeaturesFromCache Sample.fs_unequal "chara" initialState)))).
Proof.
  split.
  - apply (failed_load_matches_nothing NORM_L2 no_convertTo Sample.fs_missing
             "chara" initialState); [reflexivity | left; reflexivity].
  - apply (failed_load_matches_nothing NORM_L2 no_convertTo Sample.fs_unequal
             "chara" initialState); [reflexivity|].
    right. eexists. split; reflexivity.
Defined.

(** The seven categories of the routes (lines 305-311) are ordinary keys,
    and two of them are not listed initially. *)
Example routed_categories :
  forallb JsObject.ordinary
    ["summon/party_main"; "summon/party_sub"; "weapon/main"; "weapon/normal";
     "priority/weapon/main"; "priority/weapon/normal"; "chara"] = true /\
  unlisted initialTemplateFeatures "priority/weapon/main" /\
  unlisted initialTemplateFeatures "priority/weapon/normal".
Proof. repeat split; reflexivity. Qed.

(** C10, witness: the two routed categories that the initial map lacks, the
    first with an artifact whose template matches the query, the second
    without artifact. *)
Lemma first_use_of_unlisted_category_witness :
  (is_Some
     (templateFeatures
        (snd (matchEquipment NORM_L2 no_convertTo Sample.fs_priority
                Sample.query_zeros "priority/weapon/main" 10 3 false initialState))
        !! "priority/weapon/main") /\
   (exists rest,
      trace (snd (matchEquipment NORM_L2 no_convertTo Sample.fs_priority
                    Sample.query_zeros "priority/weapon/main" 10 3 false
                    initialState))
      = FsAccess "priority/weapon/main_features.json" :: rest) /\
   templateFeatures
     (snd (matchEquipment NORM_L2 no_convertTo Sample.fs_priority Sample.query_zeros
             "priority/weapon/main" 10 3 false initialState))
     !! "priority/weapon/main"
   = Some (loaded_object Sample.fs_priority "priority/weapon/main")) /\
  matchEquipment NORM_L2 no_convertTo Sample.fs_missing Sample.query_zeros
    "priority/weapon/normal" 10 3 false initialState
  = ([], mkState (<["priority/weapon/normal" := []]> initialTemplateFeatures)
           [FsAccess "priority/weapon/normal_features.json"]).
Proof.
  split.
  - destruct (first_use_of_unlisted_category NORM_L2 no_convertTo Sample.fs_priority
                Sample.query_zeros "priority/weapon/main" 10 3 false initialState
                (conj eq_refl eq_refl))
      as (H1 & H2 & _ & H4).
    destruct (H4 (not_In_eqb "__proto__" ["1040000000"] eq_refl)) as (H5 & _ & _).
    exact (conj H1 (conj H2 H5)).
  - destruct (first_use_of_unlisted_category NORM_L2 no_convertTo Sample.fs_missing
                Sample.query_zeros "priority/weapon/normal" 10 3 false initialState
                (conj eq_refl eq_refl))
      as (_ & _ & _ & H4).
    exact (proj2 (proj2 (H4 (not_In_eqb "__proto__" [] eq_refl))) eq_refl).
Defined.

Example first_use_of_priority_weapon :
  matchEquipment NORM_L2 no_convertTo Sample.fs_priority Sample.query_zeros
    "priority/weapon/main" 10 3 false initialState
  = ([mkMatch "1040000000" 10],
     mkState
       (<["priority/weapon/main"
          := [("1040000000", mkMat CV_8U 32 [Sample.wide 0; Sample.wide 255])]]>
          initialTemplateFeatures)
       [FsAccess "priority/weapon/main_features.json";
        FsReadFile "priority/weapon/main_features.json";
        KnnMatch "1040000000"]).
Proof. vm_compute. reflexivity. Qed.

(** C6, witness: the query decoded from the empty text, on a category whose
    artifact has usable entries. *)
Lemma empty_query_compares_nothing_witness :
  deserializeDescriptors (units "") = Ok new_Mat /\
  fst (matchEquipment NORM_L2 no_convertTo Sample.fs_chara new_Mat "chara" 10 3
         false initialState) = [] /\
  comparisons
    (trace (snd (matchEquipment NORM_L2 no_convertTo Sample.fs_chara new_Mat "chara"
                   10 3 false initialState)))
  = comparisons (trace initialState).
Proof.
  split; [reflexivity|].
  apply (empty_query_compares_nothing NORM_L2 no_convertTo Sample.fs_chara new_Mat
           "chara" 10 3 false initialState).
  reflexivity.
Defined.

(** ** Ranking *)

Section Ranking.
Variable norm : Descriptor -> Descriptor -> Q.

Lemma upto_first_pass_In query threshold templates t :
  In t (upto_first_pass norm query threshold templates) -> In t templates.
Proof.
  induction templates as [|t' rest IH]; simpl; [tauto|].
  destruct (passes norm query threshold t'); simpl.
  - intros [->|[]]. now left.
  - intros [->|H]; [now left | right; apply IH, H].
Qed.

Lemma examined_In query threshold earlyReturn templates t :
  In t (examined norm query threshold earlyReturn templates) -> In t templates.
Proof. destruct earlyReturn; simpl; [apply upto_first_pass_In | tauto]. Qed.

Lemma upto_first_pass_split query threshold pre t post :
  (forall t', In t' pre -> passes norm query threshold t' = false) ->
  passes norm query threshold t = true ->
  upto_first_pass norm query threshold (pre ++ t :: post) = pre ++ [t].
Proof.
  intros Hpre Ht. induction pre as [|p pre IH]; simpl.
  - now rewrite Ht.
  - rewrite (Hpre p) by now left. rewrite IH; [reflexivity|].
    intros t' Hin. apply Hpre. now right.
Qed.

Lemma included_none query threshold templates :
  (forall t, In t templates -> passes norm query threshold t = false) ->
  included norm query threshold templates = [].
Proof.
  intros H. induction templates as [|t rest IH]; [reflexivity|].
  rewrite included_cons, (H t) by now left. apply IH.
  intros t' Hin. apply H. now right.
Qed.

Lemma included_app query threshold l l' :
  included norm query threshold (l ++ l')
  = included norm query threshold l ++ included norm query threshold l'.
Proof. unfold included. now rewrite List.filter_app, List.map_app. Qed.

Lemma included_In query threshold templates m :
  In m (included norm query threshold templates) <->
  exists t, In t templates /\ passes norm query threshold t = true /\
            m = to_match norm query t.
Proof.
  unfold included. rewrite in_map_iff. split.
  - intros (t & <- & Hin). apply filter_In in Hin as [Hin Hp]. eauto.
  - intros (t & Hin & Hp & ->). exists t. split; [reflexivity|].
    apply filter_In. auto.
Qed.

Lemma passes_iff query threshold t :
  passes norm query threshold t = true <->
  comparable (snd t) = true /\ compatible query (snd t) = true /\
  (threshold <= confidence_of norm query (snd t))%Z.
Proof.
  unfold passes. rewrite !andb_true_iff, Z.leb_le. tauto.
Qed.

Lemma knn_events_app l l' : knn_events (l ++ l') = knn_events l ++ knn_events l'.
Proof. unfold knn_events. now rewrite List.filter_app, List.map_app. Qed.

Lemma knn_events_comparisons l : comparisons (knn_events l) = knn_events l.
Proof.
  induction l as [|t l IH]; [reflexivity|].
  rewrite knn_events_cons. destruct (comparable (snd t)); [|exact IH].
  simpl. f_equal. exact IH.
Qed.

Lemma slice0_firstn {A} (a : list A) (e : Z) :
  (0 <= e)%Z -> slice0 a e = firstn (Z.to_nat e) a.
Proof. intros He. unfold slice0. destruct (Z.ltb_spec e 0); [lia | reflexivity]. Qed.

Lemma firstn_incl {A} (n : nat) (a : list A) (x : A) : In x (firstn n a) -> In x a.
Proof.
  intros H. rewrite <- (firstn_skipn n a). apply in_or_app. now left.
Qed.

Lemma slice0_In {A} (a : list A) (e : Z) (x : A) : In x (slice0 a e) -> In x a.
Proof. unfold slice0. destruct (e <? 0)%Z; apply firstn_incl. Qed.

Lemma by_confidence_total a b : by_confidence a b = false -> by_confidence b a = true.
Proof. unfold by_confidence. rewrite Z.leb_gt, Z.leb_le. lia. Qed.

Lemma by_confidence_trans a b c :
  by_confidence a b = true -> by_confidence b c = true -> by_confidence a c = true.
Proof. unfold by_confidence. rewrite !Z.leb_le. lia. Qed.

Lemma ranked_sorted (l : list Match) :
  StronglySorted (fun a b => (confidence b <= confidence a)%Z)
    (StableSort.sort by_confidence l).
Proof.
  pose proof (StableSortFacts.sort_strongly_sorted by_confidence by_confidence_total
                by_confidence_trans l) as H.
  induction H as [|x s Hs IH Hf]; constructor; [exact IH|].
  eapply List.Forall_impl; [|exact Hf].
  intros y Hy. unfold StableSort.lep, by_confidence in Hy. now apply Z.leb_le.
Qed.

Lemma ranked_stable (l : list Match) (v : Z) :
  List.filter (fun m => (confidence m =? v)%Z) (StableSort.sort by_confidence l)
  = List.filter (fun m => (confidence m =? v)%Z) l.
Proof.
  apply StableSortFacts.sort_stable. intros a b Ha Hb.
  apply Z.eqb_eq in Ha, Hb. unfold by_confidence. apply Z.leb_le. lia.
Qed.

End Ranking.

Section MatchClaims.
Variable norm : Descriptor -> Descriptor -> Q.
Variable convertTo : Mat -> Z -> result Mat.

Lemma included_length query threshold templates :
  length (included norm query threshold templates)
  = length (List.filter (passes norm query threshold) templates).
Proof. unfold included. apply length_map. Qed.

Lemma included_ids query threshold templates name :
  In name (List.map match_id (included norm query threshold templates)) <->
  exists mat, In (name, mat) templates /\
              passes norm query threshold (name, mat) = true.
Proof.
  rewrite in_map_iff. split.
  - intros (m & <- & Hm). apply included_In in Hm as ([name' mat] & Hin & Hp & ->).
    exists mat. auto.
  - intros (mat & Hin & Hp). exists (to_match norm query (name, mat)).
    split; [reflexivity|]. apply included_In. eauto.
Qed.

(** The ratio test, the count and the threshold, for any norm. *)
Lemma ratio_count_threshold (fs : FileSystem) (query : Mat) (c : string)
    (threshold top_n : Z) (earlyReturn : bool) (st : State) :
  mat_empty query = false -> mat_type query = CV_8U ->
  let result :=
    fst (matchEquipment norm convertTo fs query c threshold top_n earlyReturn st) in
  let o :=
    default [] (templateFeatures
      (snd (matchEquipment norm convertTo fs query c threshold top_n
              earlyReturn st)) !! c) in
  (forall i q train,
     good (nearest norm 2 train i q) = true <-> good_match norm q train) /\
  (forall templateDes knnMatches,
     knnMatch norm query templateDes 2 = Ok knnMatches ->
     goodMatchesCount knnMatches = confidence_of norm query templateDes /\
     confidence_of norm query templateDes
       = Z.of_nat (length (List.filter
                             (fun q => good (nearest norm 2 (mat_data templateDes) 0 q))
                             (mat_data query)))) /\
  (forall m, In m result ->
     exists mat,
       In (match_id m, mat) o /\
       comparable mat = true /\ compatible query mat = true /\
       confidence m = confidence_of norm query mat /\
       (threshold <= confidence m)%Z) /\
  (earlyReturn = false -> (0 <= top_n)%Z ->
   length result
   = Nat.min (Z.to_nat top_n)
       (length (List.filter (passes norm query threshold) o))) /\
  (earlyReturn = false ->
   (Z.of_nat (length (List.filter (passes norm query threshold) o)) <= top_n)%Z ->
   List.NoDup (List.map fst o) ->
   forall name mat,
     In (name, mat) o -> comparable mat = true -> compatible query mat = true ->
     (In name (List.map match_id result) <->
      (threshold <= confidence_of norm query mat)%Z)).
Proof.
  intros He Ht.
  pose proof (matchEquipment_spec norm convertTo fs query c threshold top_n
                earlyReturn st He Ht) as Hs.
  cbv zeta in Hs. cbv zeta. rewrite Hs. cbn [fst snd templateFeatures].
  set (o := default [] (templateFeatures (ensureLoaded fs c st) !! c)).
  set (reached := examined norm query threshold earlyReturn (JsObject.for_in o)).
  assert (Hlen : length (List.filter (passes norm query threshold) (JsObject.for_in o))
                 = length (List.filter (passes norm query threshold) o))
    by apply filter_length_perm, JsObjectFacts.for_in_perm.
  split; [|split; [|split; [|split]]].
  - intros i q train. rewrite good_nearest. apply ratio_ok_iff.
  - intros templateDes knnMatches Hk. rewrite knnMatch_spec in Hk.
    destruct (compatible query templateDes); [|discriminate].
    injection Hk as <-. split; [apply count_confidence|].
    unfold confidence_of. f_equal. f_equal.
    apply List.filter_ext. intros q. now rewrite good_nearest.
  - intros m Hm. apply slice0_In, StableSortFacts.sort_In in Hm.
    apply included_In in Hm as ([name mat] & Hin & Hp & ->).
    apply passes_iff in Hp as (H1 & H2 & H3). exists mat. cbn.
    repeat split; auto.
    apply JsObjectFacts.for_in_In. eapply examined_In. exact Hin.
  - intros -> Htop. subst reached. cbn [examined].
    rewrite slice0_firstn by exact Htop.
    now rewrite length_firstn, StableSortFacts.sort_length, included_length, Hlen.
  - intros -> Hfit Hnd name mat Hin Hc1 Hc2. subst reached. cbn [examined].
    assert (Htop : (0 <= top_n)%Z) by lia.
    rewrite slice0_firstn by exact Htop.
    rewrite List.firstn_all2
      by (rewrite StableSortFacts.sort_length, included_length, Hlen; lia).
    split.
    + intros Hm. apply in_map_iff in Hm as (m & <- & Hm).
      apply StableSortFacts.sort_In in Hm.
      apply included_In in Hm as ([name' mat'] & Hin' & Hp & ->). cbn in *.
      apply (proj1 (JsObjectFacts.for_in_In o _)) in Hin'.
      assert (mat' = mat) as ->.
      { apply (JsObjectFacts.In_get o name' mat' Hnd) in Hin'.
        apply (JsObjectFacts.In_get o name' mat Hnd) in Hin. congruence. }
      now apply passes_iff in Hp as (_ & _ & H3).
    + intros Hth. apply in_map_iff.
      exists (to_match norm query (name, mat)). split; [reflexivity|].
      apply StableSortFacts.sort_In, included_In.
      exists (name, mat). split; [|split; [|reflexivity]].
      * now apply JsObjectFacts.for_in_In.
      * apply passes_iff. auto.
Qed.

(** C3: the list returned by [matchEquipment] consists of the first [top_n]
    elements of a ranking of the included templates; the ranking is a
    permutation of them in which confidences never increase and templates of
    equal confidence keep the order in which they were enumerated. *)
Theorem results_ranked_and_truncated (fs : FileSystem) (query : Mat) (c : string)
    (threshold top_n : Z) (earlyReturn : bool) (st : State) :
  mat_empty query = false -> mat_type query = CV_8U -> (0 <= top_n)%Z ->
  exists ranked,
    Permutation ranked
      (included norm query threshold
         (examined norm query threshold earlyReturn
            (JsObject.for_in
               (default [] (templateFeatures
                  (snd (matchEquipment norm convertTo fs query c threshold top_n
                          earlyReturn st)) !! c))))) /\
    StronglySorted (fun a b => (confidence b <= confidence a)%Z) ranked /\
    (forall v,
       List.filter (fun m => (confidence m =? v)%Z) ranked
       = List.filter (fun m => (confidence m =? v)%Z)
           (included norm query threshold
              (examined norm query threshold earlyReturn
                 (JsObject.for_in
                    (default [] (templateFeatures
                       (snd (matchEquipment norm convertTo fs query c threshold
                               top_n earlyReturn st)) !! c)))))) /\
    fst (matchEquipment norm convertTo fs query c threshold top_n earlyReturn st)
      = firstn (Z.to_nat top_n) ranked /\
    (Z.of_nat (length (fst (matchEquipment norm convertTo fs query c threshold
                              top_n earlyReturn st))) <= top_n)%Z.
Proof.
  intros He Ht Htop.
  pose proof (matchEquipment_spec norm convertTo fs query c threshold top_n
                earlyReturn st He Ht) as Hs.
  cbv zeta in Hs. rewrite Hs. cbn [fst snd templateFeatures].
  set (incl := included _ _ _ _).
  exists (StableSort.sort by_confidence incl).
  split; [apply StableSortFacts.sort_perm|].
  split; [apply ranked_sorted|].
  split; [intros v; apply ranked_stable|].
  rewrite slice0_firstn by exact Htop. split; [reflexivity|].
  rewrite length_firstn. lia.
Qed.

(** C4: with [earlyReturn] set, when the enumeration of the category's
    templates reaches a first template that meets the threshold, the result
    is that template alone, and the comparisons made are those of the
    templates before it and its own: no later template is compared. *)
Theorem early_return_stops_at_first (fs : FileSystem) (query : Mat) (c : string)
    (threshold top_n : Z) (st : State) (o pre post : list (string * Mat))
    (name : string) (mat : Mat) :
  mat_empty query = false -> mat_type query = CV_8U -> (1 <= top_n)%Z ->
  templateFeatures
    (snd (matchEquipment norm convertTo fs query c threshold top_n true st)) !! c
    = Some o ->
  JsObject.for_in o = pre ++ (name, mat) :: post ->
  (forall t, In t pre -> passes norm query threshold t = false) ->
  passes norm query threshold (name, mat) = true ->
  fst (matchEquipment norm convertTo fs query c threshold top_n true st)
    = [mkMatch name (confidence_of norm query mat)] /\
  comparisons
    (trace (snd (matchEquipment norm convertTo fs query c threshold top_n true st)))
    = comparisons (trace st) ++ knn_events pre ++ [KnnMatch name].
Proof.
  intros He Ht Htop.
  pose proof (matchEquipment_spec norm convertTo fs query c threshold top_n
                true st He Ht) as Hs.
  cbv zeta in Hs. rewrite Hs. cbn [fst snd templateFeatures trace].
  intros Ho Hfor Hpre Hpass. rewrite Ho. cbn [default from_option id].
  rewrite Hfor. unfold examined.
  rewrite (upto_first_pass_split norm query threshold pre (name, mat) post Hpre Hpass).
  rewrite included_app, (included_none norm query threshold pre Hpre).
  rewrite included_cons, Hpass. cbn [app].
  split.
  - unfold included, to_match, slice0. cbn.
    destruct (Z.ltb_spec top_n 0); [lia|].
    destruct (Z.to_nat top_n) eqn:E; [lia|]. cbn. now rewrite List.firstn_nil.
  - rewrite comparisons_app, knn_events_comparisons, knn_events_app.
    rewrite ensureLoaded_load, load_comparisons. f_equal. f_equal.
    unfold knn_events. cbn.
    apply passes_iff in Hpass as (Hc & _ & _). cbn in Hc. now rewrite Hc.
Qed.

End MatchClaims.

(** *** The norm of the matcher *)

Lemma scale_exponent (e : Z) :
  (0 <= e <= 47)%Z ->
  (0 <= (47 - e) / 2 /\ 46 <= e + 2 * ((47 - e) / 2) <= 47)%Z.
Proof.
  intros He. pose proof (Z.div_mod (47 - e) 2 ltac:(lia)) as Hd.
  pose proof (Z.mod_pos_bound (47 - e) 2 ltac:(lia)). lia.
Qed.

(** [sqrt_single] rounds the root correctly. *)
Lemma sqrt_single_spec (s : Z) :
  (0 < s < 2 ^ 48)%Z -> single_sqrt s (sqrt_single s).
Proof.
  intros Hs. unfold sqrt_single.
  destruct (Z.leb_spec s 0) as [H0|_]; [lia|].
  set (e := Z.log2 s). set (k := ((47 - e) / 2)%Z).
  assert (He : (0 <= e <= 47)%Z).
  { split; [apply Z.log2_nonneg|].
    assert (e < 48)%Z; [|lia]. apply Z.log2_lt_pow2; lia. }
  destruct (scale_exponent e He) as [Hk Hek]. fold k in Hk, Hek.
  destruct (Z.log2_spec s ltac:(lia)) as [Hlo Hhi]. fold e in Hlo, Hhi.
  assert (H4 : (4 ^ k = 2 ^ (2 * k))%Z) by (rewrite Z.pow_mul_r by lia; reflexivity).
  set (t := (s * 4 ^ k)%Z).
  assert (Ht : (2 ^ 46 <= t < 2 ^ 48)%Z).
  { unfold t. rewrite H4. split.
    - apply Z.le_trans with (2 ^ e * 2 ^ (2 * k))%Z.
      + rewrite <- Z.pow_add_r by lia. apply Z.pow_le_mono_r; lia.
      + apply Z.mul_le_mono_nonneg_r; [apply Z.pow_nonneg; lia | exact Hlo].
    - apply Z.lt_le_trans with (2 ^ Z.succ e * 2 ^ (2 * k))%Z.
      + apply Z.mul_lt_mono_pos_r; [apply Z.pow_pos_nonneg; lia | exact Hhi].
      + rewrite <- Z.pow_add_r by lia. apply Z.pow_le_mono_r; lia. }
  destruct (Z.sqrt_spec t ltac:(lia)) as [Hr1 Hr2].
  set (r := Z.sqrt t) in *.
  assert (Hr : (2 ^ 23 <= r < 2 ^ 24)%Z).
  { split.
    - change (2 ^ 23)%Z with (Z.sqrt (2 ^ 46)). apply Z.sqrt_le_mono. lia.
    - apply Z.sqrt_lt_square; [lia | lia | ].
      change (2 ^ 24 * 2 ^ 24)%Z with (2 ^ 48)%Z. lia. }
  cbv zeta. fold e k t r.
  destruct (Z.ltb_spec (r * r + r) t) as [Hup|Hdown].
  - exists (r + 1)%Z, k. split; [reflexivity|]. split; [exact Hk|]. split; [lia|].
    fold t. nia.
  - exists r, k. split; [reflexivity|]. split; [exact Hk|]. split; [lia|].
    fold t. nia.
Qed.

Lemma normL2Sqr_nonneg (a b : Descriptor) : (0 <= normL2Sqr a b)%Z.
Proof.
  revert b. induction a as [|x a IH]; intros [|y b]; simpl; try lia.
  specialize (IH b). nia.
Qed.

(** C2 (as amended): the distances that the loop compares are those of the
    matcher that line 165 constructs, which are Euclidean, not Hamming
    distances: the distance of two rows is zero when they agree and
    otherwise the square root of the sum of their squared differences,
    rounded to single precision.  With these distances, the test applied to
    the neighbours of a query descriptor succeeds exactly when its nearest
    distance among the template's rows is strictly below 0.75 times its
    second nearest; the confidence of a template is the number of query
    descriptors that pass the test; every reported match is a compared
    template of the category with this confidence, which is at least the
    threshold; without early return the result has as many elements as
    there are such templates, up to [top_n]; and when [top_n] leaves room
    for all of them, a compared template is reported exactly when its
    confidence is at least the threshold. *)
Theorem ratio_test_confidence_threshold (convertTo : Mat -> Z -> result Mat)
    (fs : FileSystem) (query : Mat) (c : string) (threshold top_n : Z)
    (earlyReturn : bool) (st : State) :
  mat_empty query = false -> mat_type query = CV_8U ->
  let result :=
    fst (matchEquipment NORM_L2 convertTo fs query c threshold top_n earlyReturn st) in
  let o :=
    default [] (templateFeatures
      (snd (matchEquipment NORM_L2 convertTo fs query c threshold top_n
              earlyReturn st)) !! c) in
  (forall a b,
     (normL2Sqr a b = 0%Z -> NORM_L2 a b = 0%Q) /\
     ((0 < normL2Sqr a b < 2 ^ 24)%Z -> single_sqrt (normL2Sqr a b) (NORM_L2 a b))) /\
  (forall i q train,
     good (nearest NORM_L2 2 train i q) = true <-> good_match NORM_L2 q train) /\
  (forall templateDes knnMatches,
     knnMatch NORM_L2 query templateDes 2 = Ok knnMatches ->
     goodMatchesCount knnMatches = confidence_of NORM_L2 query templateDes /\
     confidence_of NORM_L2 query templateDes
       = Z.of_nat (length (List.filter
                             (fun q => good (nearest NORM_L2 2 (mat_data templateDes) 0 q))
                             (mat_data query)))) /\
  (forall m, In m result ->
     exists mat,
       In (match_id m, mat) o /\
       comparable mat = true /\ compatible query mat = true /\
       confidence m = confidence_of NORM_L2 query mat /\
       (threshold <= confidence m)%Z) /\
  (earlyReturn = false -> (0 <= top_n)%Z ->
   length result
   = Nat.min (Z.to_nat top_n)
       (length (List.filter (passes NORM_L2 query threshold) o))) /\
  (earlyReturn = false ->
   (Z.of_nat (length (List.filter (passes NORM_L2 query threshold) o)) <= top_n)%Z ->
   List.NoDup (List.map fst o) ->
   forall name mat,
     In (name, mat) o -> comparable mat = true -> compatible query mat = true ->
     (In name (List.map match_id result) <->
      (threshold <= confidence_of NORM_L2 query mat)%Z)).
Proof.
  intros He Ht. cbv zeta. split.
  - intros a b. unfold NORM_L2. split.
    + now intros ->.
    + intros Hs. apply sqrt_single_spec. lia.
  - exact (ratio_count_threshold NORM_L2 convertTo fs query c threshold top_n
             earlyReturn st He Ht).
Qed.

(** C2, witness: at threshold 10 the template of confidence 9 is not
    reported and the template of confidence 10 is. *)
Lemma ratio_test_confidence_threshold_witness :
  (In "nine"
     (List.map match_id
        (fst (matchEquipment NORM_L2 no_convertTo Sample.fs_missing Sample.query10
                "weapon/main" 10 3 false Sample.state_nine))) <->
   (10 <= 9)%Z) /\
  (In "ten"
     (List.map match_id
        (fst (matchEquipment NORM_L2 no_convertTo Sample.fs_missing Sample.query10
                "weapon/main" 10 3 false Sample.state_nine))) <->
   (10 <= 10)%Z).
Proof.
  pose (H := proj2 (proj2 (proj2 (proj2 (proj2
               (ratio_test_confidence_threshold no_convertTo Sample.fs_missing
                  Sample.query10 "weapon/main" 10 3 false Sample.state_nine
                  eq_refl eq_refl)))))).
  assert (Hfit : (1 <= 3)%Z) by lia.
  assert (Hnd : List.NoDup ["nine"; "ten"]).
  { constructor; [intros [E|[]]; discriminate E|].
    constructor; [intros []|constructor]. }
  split.
  - exact (H eq_refl Hfit Hnd "nine" (Sample.mat1 [0; 6]%N)
             (or_introl eq_refl) eq_refl eq_refl).
  - exact (H eq_refl Hfit Hnd "ten" (Sample.mat1 [0; 255]%N)
             (or_intror (or_introl eq_refl)) eq_refl eq_refl).
Defined.

Example confidence_nine :
  confidence_of NORM_L2 Sample.query10 (Sample.mat1 [0; 6]%N) = 9%Z /\
  fst (matchEquipment NORM_L2 no_convertTo Sample.fs_missing Sample.query10
         "weapon/main" 10 3 false Sample.state_nine) = [mkMatch "ten" 10].
Proof. split; vm_compute; reflexivity. Qed.

(** C2, counterexample: the zero descriptor against the template "t",
    whose two rows differ from it in one bit (Euclidean distance 4) and in
    two bits (Euclidean distance 3).  By Hamming distances, 1 and 2, the
    descriptor is a good match and the template has confidence 1; the loop
    compares 3 with 0.75 * 4, counts nothing, and at threshold 1 the
    template is not reported. *)
Lemma hamming_ratio_test_refuted :
  ~ ((good (nearest NORM_L2 2 (mat_data Sample.close_rows) 0 (repeat 0%N 32)) = true <->
      good_match hamming (repeat 0%N 32) (mat_data Sample.close_rows)) \/
     (In "t"
        (List.map match_id
           (fst (matchEquipment NORM_L2 no_convertTo Sample.fs_missing Sample.zero32
                   "weapon/main" 1 3 false Sample.state_close))) <->
      (1 <= confidence_of hamming Sample.zero32 Sample.close_rows)%Z)).
Proof.
  intros [[_ H]|[_ H]].
  - assert (Hg : good_match hamming (repeat 0%N 32) (mat_data Sample.close_rows)).
    { apply ratio_ok_iff. vm_compute. reflexivity. }
    specialize (H Hg). vm_compute in H. discriminate H.
  - assert (Hc : (1 <= confidence_of hamming Sample.zero32 Sample.close_rows)%Z)
      by (vm_compute; discriminate).
    specialize (H Hc). vm_compute in H. exact H.
Qed.

Example distances_of_close_rows :
  Forall2 Qeq (List.map (NORM_L2 (repeat 0%N 32)) (mat_data Sample.close_rows))
    [4; 3]%Q /\
  List.map (hamming (repeat 0%N 32)) (mat_data Sample.close_rows) = [1; 2]%Q.
Proof.
  split; [|vm_compute; reflexivity].
  repeat constructor; vm_compute; reflexivity.
Qed.

(** C3, witness: A (confidence 15) and B (confidence 12), threshold 10,
    [top_n] 3. *)
Lemma results_ranked_and_truncated_witness :
  exists ranked,
    Permutation ranked [mkMatch "A" 15; mkMatch "B" 12] /\
    StronglySorted (fun a b => (confidence b <= confidence a)%Z) ranked /\
    (forall v,
       List.filter (fun m => (confidence m =? v)%Z) ranked
       = List.filter (fun m => (confidence m =? v)%Z)
           [mkMatch "A" 15; mkMatch "B" 12]) /\
    fst (matchEquipment NORM_L2 no_convertTo Sample.fs_missing Sample.query15
           "weapon/main" 10 3 false Sample.state_AB)
      = firstn 3 ranked /\
    (Z.of_nat (length (fst (matchEquipment NORM_L2 no_convertTo Sample.fs_missing
                              Sample.query15 "weapon/main" 10 3 false
                              Sample.state_AB))) <= 3)%Z.
Proof.
  assert (H03 : (0 <= 3)%Z) by lia.
  exact (results_ranked_and_truncated NORM_L2 no_convertTo Sample.fs_missing
           Sample.query15 "weapon/main" 10 3 false Sample.state_AB
           eq_refl eq_refl H03).
Defined.

Example match_A_B :
  fst (matchEquipment NORM_L2 no_convertTo Sample.fs_missing Sample.query15
         "weapon/main" 10 3 false Sample.state_AB)
  = [mkMatch "A" 15; mkMatch "B" 12].
Proof. vm_compute. reflexivity. Qed.

(** C4, witness: X (confidence 11) is enumerated before Y (confidence 20);
    with [earlyReturn] the result is X alone and Y is not compared. *)
Lemma early_return_stops_at_first_witness :
  fst (matchEquipment NORM_L2 no_convertTo Sample.fs_missing Sample.query20
         "weapon/main" 10 3 true Sample.state_XY)
    = [mkMatch "X" 11] /\
  comparisons
    (trace (snd (matchEquipment NORM_L2 no_convertTo Sample.fs_missing Sample.query20
                   "weapon/main" 10 3 true Sample.state_XY)))
    = [KnnMatch "X"].
Proof.
  assert (H13 : (1 <= 3)%Z) by lia.
  exact (early_return_stops_at_first NORM_L2 no_convertTo Sample.fs_missing
           Sample.query20 "weapon/main" 10 3 Sample.state_XY
           [("X", Sample.mat1 [0; 6]%N); ("Y", Sample.mat1 [0; 255]%N)]
           [] [("Y", Sample.mat1 [0; 255]%N)] "X" (Sample.mat1 [0; 6]%N)
           eq_refl eq_refl H13 eq_refl eq_refl
           (fun t (H : In t []) => match H with end) eq_refl).
Defined.

Example confidence_Y :
  confidence_of NORM_L2 Sample.query20 (Sample.mat1 [0; 255]%N) = 20%Z.
Proof. vm_compute. reflexivity. Qed.

(** ** Overlapping calls *)

Section InterleavingFacts.
Variable norm : Descriptor -> Descriptor -> Q.
Variable convertTo : Mat -> Z -> result Mat.
Variable fs : FileSystem.
Variable c : string.

(** A call that runs alone goes through its suspension points and ends
    with the result and the state of [matchEquipment]. *)
Lemma step_task_alone (k : Call) (st : State) :
  step2 norm convertTo fs c (step2 norm convertTo fs c (step2 norm convertTo fs c
    (step2 norm convertTo fs c (Fresh k, st))))
  = (Done (fst (matchEquipment norm convertTo fs (call_query k) c (call_threshold k)
                  (call_top_n k) (call_earlyReturn k) st)),
     snd (matchEquipment norm convertTo fs (call_query k) c (call_threshold k)
            (call_top_n k) (call_earlyReturn k) st)).
Proof.
  unfold step2. cbn [fst snd step_task].
  unfold matchEquipment, loadFeaturesFromCache.
  destruct (has_features (templateFeatures st) c) eqn:Hf; cbn [negb].
  - unfold finish.
    destruct (match_loaded norm convertTo (call_query k) c (call_threshold k)
                (call_top_n k) (call_earlyReturn k) st) as [r st'].
    reflexivity.
  - cbn [fst snd step_task].
    destruct (fs (cacheFileName c)) as [| | |a] eqn:Hfs;
      cbn [fst snd step_task]; rewrite ?Hfs; cbn [fst snd step_task].
    4: destruct (template_names a) as [names|], (descriptors_list a) as [blobs|];
         cbn [fst snd step_task];
         try destruct (negb (length names =? length blobs)%nat);
         cbn [fst snd step_task].
    all: unfold finish; cbn [emit templateFeatures trace];
      match goal with
      | |- context [has_features ?tf c] => destruct (has_features tf c)
      end; cbn [negb fst snd]; [|reflexivity];
      match goal with
      | |- context [match_loaded ?a ?b ?q ?cc ?t ?n ?e ?s] =>
          destruct (match_loaded a b q cc t n e s) as [r st']
      end; reflexivity.
Qed.

Lemma resume_at (i : nat) (tasks : list Task) (st : State) (t : Task) :
  tasks !! i = Some t ->
  resume norm convertTo fs c i (tasks, st)
  = (<[i := fst (step_task norm convertTo fs c t st)]> tasks,
     snd (step_task norm convertTo fs c t st)).
Proof.
  intros Ht. unfold resume. cbn [fst snd]. rewrite Ht.
  now destruct (step_task norm convertTo fs c t st).
Qed.

Lemma step_fresh_unloaded (k : Call) (st : State) :
  has_features (templateFeatures st) c = false ->
  exists st',
    step_task norm convertTo fs c (Fresh k) st = (AwaitAccess k, st') /\
    has_features (templateFeatures st') c = false /\
    trace st' = trace st ++ [FsAccess (cacheFileName c)].
Proof.
  intros Hf. cbn [step_task]. rewrite Hf. cbn [negb].
  eexists. split; [reflexivity|]. split; [|reflexivity].
  cbn [emit templateFeatures].
  apply has_features_false in Hf as [Hn|Hs].
  - rewrite Hn. apply has_features_false. right. apply lookup_insert_eq.
  - rewrite Hs. apply has_features_false. now right.
Qed.

Lemma step_access_readable (k : Call) (st : State) :
  fs (cacheFileName c) <> ENOENT -> fs (cacheFileName c) <> EACCES ->
  step_task norm convertTo fs c (AwaitAccess k) st
  = (AwaitReadFile k, emit (FsReadFile (cacheFileName c)) st).
Proof.
  intros Hne Hna. cbn [step_task].
  destruct (fs (cacheFileName c)); congruence.
Qed.

(** Two calls that both start before either load has settled both read the
    artifact, whenever it can be read. *)
Lemma overlap_reads_twice (k0 k1 : Call) (st : State) :
  has_features (templateFeatures st) c = false ->
  fs (cacheFileName c) <> ENOENT -> fs (cacheFileName c) <> EACCES ->
  reads (trace (snd (run_schedule norm convertTo fs c [0; 1; 0; 1]%nat
                       ([Fresh k0; Fresh k1], st))))
  = reads (trace st) ++ [FsReadFile (cacheFileName c); FsReadFile (cacheFileName c)].
Proof.
  intros Hf Hne Hna.
  destruct (step_fresh_unloaded k0 st Hf) as (s1 & E1 & Hf1 & T1).
  destruct (step_fresh_unloaded k1 s1 Hf1) as (s2 & E2 & Hf2 & T2).
  unfold run_schedule. cbn [fold_left].
  rewrite (resume_at 0 _ _ (Fresh k0)) by reflexivity.
  rewrite E1. cbn [fst snd list_insert insert].
  rewrite (resume_at 1 _ _ (Fresh k1)) by reflexivity.
  rewrite E2. cbn [fst snd list_insert insert].
  rewrite (resume_at 0 _ _ (AwaitAccess k0)) by reflexivity.
  rewrite step_access_readable by assumption. cbn [fst snd list_insert insert].
  rewrite (resume_at 1 _ _ (AwaitAccess k1)) by reflexivity.
  rewrite step_access_readable by assumption. cbn [fst snd emit trace].
  rewrite T2, T1, !reads_app. cbn. now rewrite !app_nil_r, <- app_assoc.
Qed.

End InterleavingFacts.

(** C9, evaluation of the code: two first-use calls for "chara" that are
    resumed in turn both complete, and the artifact is read twice; the same
    two calls, one after the other, read it once. *)
Theorem overlapping_first_use_reads_twice :
  let k := mkCall Sample.zero32 10 3 false in
  let overlapped :=
    run_schedule NORM_L2 no_convertTo Sample.fs_chara "chara"
      [0; 1; 0; 1; 0; 1; 0; 1]%nat ([Fresh k; Fresh k], initialState) in
  let serial :=
    run_schedule NORM_L2 no_convertTo Sample.fs_chara "chara"
      [0; 0; 0; 0; 1; 1; 1; 1]%nat ([Fresh k; Fresh k], initialState) in
  fst overlapped = [Done []; Done []] /\
  has_features (templateFeatures (snd overlapped)) "chara" = true /\
  reads (trace (snd overlapped))
    = [FsReadFile "chara_features.json"; FsReadFile "chara_features.json"] /\
  fst serial = [Done []; Done []] /\
  reads (trace (snd serial)) = [FsReadFile "chara_features.json"].
Proof. vm_compute. repeat split. Qed.

(** * Further properties *)

(** ** The shape of what is cached *)

Lemma decoded_descriptors (s : JsString) (m : Mat) :
  deserializeDescriptors s = Ok m -> mat_empty m = false -> descriptors m.
Proof.
  intros Hd He.
  destruct (deserializeDescriptors_ok s m Hd) as (Ht & Hr & Hw & _ & _).
  unfold descriptors. split; [exact Ht|]. split; [|split; [|exact Hw]].
  - revert Hd He. unfold deserializeDescriptors.
    destruct (negb _); [discriminate|].
    destruct (_ =? 0)%nat; intros [= <-]; [discriminate | reflexivity].
  - intros Hnil. unfold mat_empty, mat_rows in He. rewrite Hnil in He. discriminate.
Qed.

Lemma set_Forall (P : string * Mat -> Prop) o k m :
  Forall P o -> (forall k', P (k', m)) -> Forall P (JsObject.set o k m).
Proof.
  intros Ho Hm.
  destruct (JsObjectFacts.set_cases o k m) as [[_ ->]|[_ ->]]; [exact Ho|].
  induction Ho as [|[k0 v0] o Hp Ho IH]; simpl.
  - constructor; [apply Hm | constructor].
  - destruct (String.eqb k0 k); constructor; auto.
Qed.

Lemma set_well_loaded o k m :
  well_loaded o -> descriptors m -> well_loaded (JsObject.set o k m).
Proof.
  intros [Hnd Hf] Hm. split.
  - now apply JsObjectFacts.set_keys_NoDup.
  - apply set_Forall; [exact Hf | intros k'; exact Hm].
Qed.

Lemma load_entries_well_loaded names blobs o :
  well_loaded o -> well_loaded (load_entries names blobs o).
Proof.
  revert blobs o. induction names as [|name names IH]; intros blobs o Ho; simpl; [auto|].
  destruct blobs as [|desStr blobs]; [auto|]. apply IH.
  destruct (load_entry_cases o name desStr) as [(m & Hd & E)|[_ E]]; rewrite E; [|auto].
  apply set_well_loaded; [exact Ho|].
  destruct Hd as (s & _ & _ & Hd & He). eapply decoded_descriptors; eassumption.
Qed.

Lemma well_loaded_nil : well_loaded [].
Proof. split; constructor. Qed.

Lemma loaded_object_well_loaded fs c : well_loaded (loaded_object fs c).
Proof.
  unfold loaded_object.
  destruct (fs (cacheFileName c)) as [| | |a]; try apply well_loaded_nil.
  destruct (template_names a), (descriptors_list a); try apply well_loaded_nil.
  destruct (malformed a); [apply well_loaded_nil|].
  apply load_entries_well_loaded, well_loaded_nil.
Qed.

Lemma load_cache_wf fs c st :
  cache_wf (templateFeatures st) ->
  cache_wf (templateFeatures (loadFeaturesFromCache fs c st)).
Proof.
  intros Hwf. destruct (has_features (templateFeatures st) c) eqn:Hf.
  - now rewrite load_when_loaded.
  - destruct (load_when_unloaded fs c st Hf) as [-> _].
    intros c0 o Hl. destruct (decide (c = c0)) as [<-|Hne].
    + rewrite lookup_insert_eq in Hl. injection Hl as <-.
      apply loaded_object_well_loaded.
    + rewrite lookup_insert_ne in Hl by exact Hne. eapply Hwf, Hl.
Qed.

Lemma initial_cache_wf : cache_wf (templateFeatures initialState).
Proof.
  intros c o Hl. cbn [templateFeatures initialState] in Hl.
  unfold initialTemplateFeatures in Hl.
  repeat (apply lookup_insert_Some in Hl as [[_ <-]|[_ Hl]]; [apply well_loaded_nil|]).
  rewrite lookup_empty in Hl. discriminate.
Qed.

Lemma file_events_app (t u : list Event) :
  file_events (t ++ u) = file_events t ++ file_events u.
Proof. apply List.filter_app. Qed.

Lemma knn_events_no_file l : file_events (knn_events l) = [].
Proof.
  induction l as [|t l IH]; [reflexivity|].
  rewrite knn_events_cons. destruct (comparable (snd t)); exact IH.
Qed.

Lemma knn_events_no_read l : reads (knn_events l) = [].
Proof.
  induction l as [|t l IH]; [reflexivity|].
  rewrite knn_events_cons. destruct (comparable (snd t)); exact IH.
Qed.

Section Effects.
Variable norm : Descriptor -> Descriptor -> Q.
Variable convertTo : Mat -> Z -> result Mat.

(** Matching only appends comparisons to the trace. *)
Lemma match_loaded_effects query c threshold top_n earlyReturn st :
  exists l,
    snd (match_loaded norm convertTo query c threshold top_n earlyReturn st)
    = mkState (templateFeatures st) (trace st ++ knn_events l).
Proof.
  unfold match_loaded.
  destruct (mat_empty query).
  { exists []. destruct st. cbn. now rewrite app_nil_r. }
  destruct (if negb (mat_type query =? CV_8U)%Z then convertTo query CV_8U
            else Ok query) as [q'|].
  - rewrite match_templates_spec. eexists. reflexivity.
  - exists []. destruct st. cbn. now rewrite app_nil_r.
Qed.

Lemma matchEquipment_effects fs query c threshold top_n earlyReturn st :
  exists l,
    snd (matchEquipment norm convertTo fs query c threshold top_n earlyReturn st)
    = mkState (templateFeatures (ensureLoaded fs c st))
        (trace (ensureLoaded fs c st) ++ knn_events l).
Proof.
  unfold matchEquipment, ensureLoaded.
  destruct (has_features (templateFeatures st) c); cbn [negb].
  - apply match_loaded_effects.
  - destruct (has_features (templateFeatures (loadFeaturesFromCache fs c st)) c);
      cbn [negb]; [apply match_loaded_effects|].
    exists []. destruct (loadFeaturesFromCache fs c st). cbn. now rewrite app_nil_r.
Qed.

Lemma matchEquipment_cache_wf fs query c threshold top_n earlyReturn st :
  cache_wf (templateFeatures st) ->
  cache_wf (templateFeatures
              (snd (matchEquipment norm convertTo fs query c threshold top_n
                      earlyReturn st))).
Proof.
  intros Hwf. rewrite matchEquipment_cache, ensureLoaded_load.
  now apply load_cache_wf.
Qed.

Lemma process_contents_cache_wf fs c earlyReturn cs st :
  cache_wf (templateFeatures st) ->
  cache_wf (templateFeatures
              (snd (process_contents norm convertTo fs c earlyReturn cs st))).
Proof.
  revert st. induction cs as [|content cs IH]; intros st Hwf; simpl; [exact Hwf|].
  destruct (deserializeDescriptors content) as [queryDes|[message]].
  - destruct (matchEquipment norm convertTo fs queryDes c 10 3 earlyReturn st)
      as [topMatches st1] eqn:Hm.
    assert (Hwf1 : cache_wf (templateFeatures st1)).
    { replace st1 with (snd (matchEquipment norm convertTo fs queryDes c 10 3
                               earlyReturn st)) by now rewrite Hm.
      now apply matchEquipment_cache_wf. }
    specialize (IH st1 Hwf1).
    destruct (process_contents norm convertTo fs c earlyReturn cs st1). exact IH.
  - specialize (IH st Hwf).
    destruct (process_contents norm convertTo fs c earlyReturn cs st). exact IH.
Qed.

(** X1: the loader, the matcher and the request handler keep the cache well
    formed: in every category the template names are distinct and every
    cached matrix is a non-empty [CV_8U] matrix of 32-byte rows. *)
Theorem cache_stays_well_formed (fs : FileSystem) (c : string) (st : State)
    (query : Mat) (threshold top_n : Z) (earlyReturn : bool)
    (reqBody : option Body) :
  cache_wf (templateFeatures st) ->
  cache_wf (templateFeatures (loadFeaturesFromCache fs c st)) /\
  cache_wf (templateFeatures
              (snd (matchEquipment norm convertTo fs query c threshold top_n
                      earlyReturn st))) /\
  cache_wf (templateFeatures
              (snd (handleDetectRequest norm convertTo fs reqBody c st))).
Proof.
  intros Hwf. split; [now apply load_cache_wf|].
  split; [now apply matchEquipment_cache_wf|].
  unfold handleDetectRequest.
  destruct reqBody as [body|]; [|exact Hwf].
  destruct (contents body) as [cs|]; [|exact Hwf].
  destruct (length cs =? 0)%nat; [exact Hwf|].
  pose proof (process_contents_cache_wf fs c
                (is_true_string (earlyReturn_field body)) cs st Hwf) as H.
  destruct (process_contents norm convertTo fs c _ cs st). exact H.
Qed.

End Effects.

(** X1, witness: a request with good and bad blobs on the initial state. *)
Lemma cache_stays_well_formed_witness :
  cache_wf (templateFeatures
              (loadFeaturesFromCache Sample.fs_chara "chara" initialState)) /\
  cache_wf (templateFeatures
              (snd (matchEquipment NORM_L2 no_convertTo Sample.fs_chara Sample.zero32
                      "chara" 10 3 false initialState))) /\
  cache_wf (templateFeatures
              (snd (handleDetectRequest NORM_L2 no_convertTo Sample.fs_chara
                      (Some Sample.body_mixed) "chara" initialState))).
Proof.
  exact (cache_stays_well_formed NORM_L2 no_convertTo Sample.fs_chara "chara"
           initialState Sample.zero32 10 3 false (Some Sample.body_mixed)
           initial_cache_wf).
Defined.



(** ** What a call of the matcher does in general *)

Lemma descriptors_comparable m : descriptors m -> comparable m = true.
Proof.
  intros (Ht & Hc & Hd & _). unfold comparable, mat_empty, mat_rows.
  rewrite Ht, Hc. destruct (mat_data m); [contradiction | reflexivity].
Qed.

Lemma descriptors_compatible q m :
  descriptors q -> descriptors m -> compatible q m = true.
Proof.
  intros (Ht & Hc & _) (Ht' & Hc' & _). unfold compatible.
  rewrite Ht, Ht', Hc, Hc'. reflexivity.
Qed.

Lemma knn_events_all l :
  Forall (fun p : string * Mat => descriptors (snd p)) l ->
  knn_events l = List.map (fun t => KnnMatch (fst t)) l.
Proof.
  induction 1 as [|t l Ht _ IH]; [reflexivity|].
  rewrite knn_events_cons, (descriptors_comparable _ Ht), IH. reflexivity.
Qed.

Lemma NoDup_map_filter {A B} (f : A -> B) (p : A -> bool) (l : list A) :
  List.NoDup (List.map f l) -> List.NoDup (List.map f (List.filter p l)).
Proof.
  induction l as [|x l IH]; simpl; intros Hnd; [constructor|].
  inversion Hnd as [|? ? Hnotin Hnd']; subst.
  destruct (p x); simpl; [|apply IH, Hnd'].
  constructor; [|apply IH, Hnd'].
  intros Hin. apply Hnotin. apply in_map_iff in Hin as (y & <- & Hy).
  apply in_map. apply filter_In in Hy. tauto.
Qed.

Lemma NoDup_firstn {A} (n : nat) (l : list A) :
  List.NoDup l -> List.NoDup (firstn n l).
Proof.
  intros Hnd. rewrite <- (firstn_skipn n l) in Hnd.
  eapply List.NoDup_app_remove_r. exact Hnd.
Qed.

Section General.
Variable norm : Descriptor -> Descriptor -> Q.
Variable convertTo : Mat -> Z -> result Mat.

Lemma upto_first_pass_prefix query threshold templates :
  exists rest,
    templates = upto_first_pass norm query threshold templates ++ rest.
Proof.
  induction templates as [|t l [rest IH]]; simpl.
  - exists []. reflexivity.
  - destruct (passes norm query threshold t).
    + exists l. reflexivity.
    + exists rest. simpl. now rewrite <- IH.
Qed.

Lemma examined_prefix query threshold earlyReturn templates :
  exists rest,
    templates = examined norm query threshold earlyReturn templates ++ rest.
Proof.
  destruct earlyReturn; simpl.
  - apply upto_first_pass_prefix.
  - exists []. now rewrite app_nil_r.
Qed.


Lemma category_well_loaded fs c st :
  cache_wf (templateFeatures st) ->
  well_loaded (default [] (templateFeatures (ensureLoaded fs c st) !! c)).
Proof.
  intros Hwf. rewrite ensureLoaded_load.
  pose proof (load_cache_wf fs c st Hwf) as Hwf'.
  destruct (templateFeatures (loadFeaturesFromCache fs c st) !! c) as [o|] eqn:Hl.
  - exact (Hwf' c o Hl).
  - apply well_loaded_nil.
Qed.

End General.

Section MatcherExtras.
Variable norm : Descriptor -> Descriptor -> Q.
Variable convertTo : Mat -> Z -> result Mat.

(** X2: on a well-formed cache, a non-empty query decoded by the codec is
    compared with every template of the category, once each and in
    enumeration order: the guards of lines 207-214 skip nothing, [knnMatch]
    never throws, and a template is included exactly when its confidence
    reaches the threshold. *)
Theorem decoded_query_meets_every_template (fs : FileSystem) (s : JsString)
    (query : Mat) (c : string) (threshold top_n : Z) (st : State) :
  cache_wf (templateFeatures st) ->
  deserializeDescriptors s = Ok query -> mat_empty query = false ->
  comparisons
    (trace (snd (matchEquipment norm convertTo fs query c threshold top_n false st)))
  = comparisons (trace st) ++
    List.map (fun t => KnnMatch (fst t))
      (JsObject.for_in
         (default [] (templateFeatures
            (snd (matchEquipment norm convertTo fs query c threshold top_n
                    false st)) !! c))) /\
  (forall t,
     In t (default [] (templateFeatures
             (snd (matchEquipment norm convertTo fs query c threshold top_n
                     false st)) !! c)) ->
     passes norm query threshold t
     = (threshold <=? confidence_of norm query (snd t))%Z).
Proof.
  intros Hwf Hd He.
  pose proof (decoded_descriptors s query Hd He) as Hq.
  rewrite matchEquipment_general. unfold effective_query. rewrite He.
  destruct Hq as (Ht & Hq'). rewrite Ht. cbn [negb Z.eqb CV_8U].
  cbv zeta. cbn [snd templateFeatures trace examined].
  destruct (category_well_loaded fs c st Hwf) as [_ Hall].
  rewrite ensureLoaded_load in *.
  split.
  - rewrite comparisons_app, knn_events_comparisons, load_comparisons. f_equal.
    apply knn_events_all.
    eapply Permutation_Forall; [apply Permutation_sym, JsObjectFacts.for_in_perm|].
    exact Hall.
  - intros t Hin. rewrite List.Forall_forall in Hall. specialize (Hall t Hin).
    unfold passes. rewrite (descriptors_comparable _ Hall).
    rewrite (descriptors_compatible query (snd t)); [reflexivity | | exact Hall].
    split; [exact Ht | exact Hq'].
Qed.

(** X3: a load and a match for one category leave the entries of every
    other category as they were. *)
Theorem other_categories_untouched (fs : FileSystem) (query : Mat) (c c' : string)
    (threshold top_n : Z) (earlyReturn : bool) (st : State) :
  c <> c' ->
  templateFeatures (loadFeaturesFromCache fs c st) !! c' = templateFeatures st !! c' /\
  templateFeatures
    (snd (matchEquipment norm convertTo fs query c threshold top_n earlyReturn st))
    !! c' = templateFeatures st !! c'.
Proof.
  intros Hne.
  assert (Hl : templateFeatures (loadFeaturesFromCache fs c st) !! c'
               = templateFeatures st !! c').
  { destruct (has_features (templateFeatures st) c) eqn:Hf.
    - now rewrite load_when_loaded.
    - destruct (load_when_unloaded fs c st Hf) as [-> _].
      now apply lookup_insert_ne. }
  split; [exact Hl|].
  now rewrite matchEquipment_cache, ensureLoaded_load.
Qed.

(** X4: once a category has features, a match touches neither the file
    system nor the cache: the cache is unchanged and the trace gains
    comparisons only. *)
Theorem loaded_category_needs_no_file (fs : FileSystem) (query : Mat) (c : string)
    (threshold top_n : Z) (earlyReturn : bool) (st : State) :
  has_features (templateFeatures st) c = true ->
  templateFeatures
    (snd (matchEquipment norm convertTo fs query c threshold top_n earlyReturn st))
  = templateFeatures st /\
  file_events
    (trace (snd (matchEquipment norm convertTo fs query c threshold top_n
                   earlyReturn st)))
  = file_events (trace st).
Proof.
  intros Hf.
  destruct (matchEquipment_effects norm convertTo fs query c threshold top_n
              earlyReturn st) as [l ->].
  rewrite ensureLoaded_load, load_when_loaded by exact Hf.
  cbn [templateFeatures trace]. split; [reflexivity|].
  now rewrite file_events_app, knn_events_no_file, app_nil_r.
Qed.

Lemma confidence_of_bounds query templateDes :
  (0 <= confidence_of norm query templateDes <= Z.of_nat (mat_rows query))%Z.
Proof.
  unfold confidence_of, mat_rows.
  pose proof (List.filter_length_le
                (fun q => ratio_test norm q (mat_data templateDes)) (mat_data query)).
  lia.
Qed.

Lemma result_members fs query c threshold top_n earlyReturn st m :
  In m (fst (matchEquipment norm convertTo fs query c threshold top_n earlyReturn st)) ->
  exists q t,
    effective_query convertTo query = Some q /\
    In t (default [] (templateFeatures (ensureLoaded fs c st) !! c)) /\
    passes norm q threshold t = true /\ m = to_match norm q t.
Proof.
  rewrite matchEquipment_general.
  destruct (effective_query convertTo query) as [q|]; [|intros []].
  cbv zeta. cbn [fst]. intros Hin.
  apply slice0_In, StableSortFacts.sort_In, included_In in Hin
    as (t & Hin & Hp & ->).
  exists q, t. repeat split; auto.
  apply JsObjectFacts.for_in_In. eapply examined_In. exact Hin.
Qed.

(** X5: for a query of type [CV_8U], no reported confidence exceeds the
    number of query descriptors; hence a query with fewer descriptors than
    the threshold matches nothing. *)
Theorem confidence_at_most_query_rows (fs : FileSystem) (query : Mat) (c : string)
    (threshold top_n : Z) (earlyReturn : bool) (st : State) :
  mat_type query = CV_8U ->
  Forall (fun m => (threshold <= confidence m <= Z.of_nat (mat_rows query))%Z)
    (fst (matchEquipment norm convertTo fs query c threshold top_n earlyReturn st)) /\
  ((Z.of_nat (mat_rows query) < threshold)%Z ->
   fst (matchEquipment norm convertTo fs query c threshold top_n earlyReturn st) = []).
Proof.
  intros Ht.
  assert (Hall : Forall
            (fun m => (threshold <= confidence m <= Z.of_nat (mat_rows query))%Z)
            (fst (matchEquipment norm convertTo fs query c threshold top_n
                    earlyReturn st))).
  { apply List.Forall_forall. intros m Hin.
    apply result_members in Hin as (q & t & Hq & _ & Hp & ->).
    assert (q = query) as ->.
    { unfold effective_query in Hq. rewrite Ht in Hq. cbn in Hq.
      destruct (mat_empty query); congruence. }
    apply passes_iff in Hp as (_ & _ & Hth). cbn [confidence to_match].
    pose proof (confidence_of_bounds query (snd t)). lia. }
  split; [exact Hall|].
  intros Hlt.
  destruct (fst (matchEquipment norm convertTo fs query c threshold top_n
                   earlyReturn st)) as [|m l]; [reflexivity|].
  inversion Hall; subst. lia.
Qed.

(** X6: on a well-formed cache, the reported matches name distinct
    templates of the category, so there are at most as many as templates. *)
Theorem results_name_distinct_templates (fs : FileSystem) (query : Mat) (c : string)
    (threshold top_n : Z) (earlyReturn : bool) (st : State) :
  cache_wf (templateFeatures st) ->
  List.NoDup
    (List.map match_id
       (fst (matchEquipment norm convertTo fs query c threshold top_n
               earlyReturn st))) /\
  incl
    (List.map match_id
       (fst (matchEquipment norm convertTo fs query c threshold top_n
               earlyReturn st)))
    (List.map fst
       (default [] (templateFeatures
          (snd (matchEquipment norm convertTo fs query c threshold top_n
                  earlyReturn st)) !! c))) /\
  (length (fst (matchEquipment norm convertTo fs query c threshold top_n
                  earlyReturn st))
   <= length (default [] (templateFeatures
                (snd (matchEquipment norm convertTo fs query c threshold top_n
                        earlyReturn st)) !! c)))%nat.
Proof.
  intros Hwf. rewrite matchEquipment_cache.
  destruct (category_well_loaded fs c st Hwf) as [Hnd _].
  set (o := default [] (templateFeatures (ensureLoaded fs c st) !! c)) in *.
  assert (Hincl : incl
            (List.map match_id
               (fst (matchEquipment norm convertTo fs query c threshold top_n
                       earlyReturn st)))
            (List.map fst o)).
  { intros name Hin. apply in_map_iff in Hin as (m & <- & Hin).
    apply result_members in Hin as (q & t & _ & Hin & _ & ->).
    cbn. now apply in_map. }
  assert (Hres : List.NoDup
            (List.map match_id
               (fst (matchEquipment norm convertTo fs query c threshold top_n
                       earlyReturn st)))).
  { rewrite matchEquipment_general.
    destruct (effective_query convertTo query) as [q|]; [|constructor].
    cbv zeta. cbn [fst]. fold o.
    unfold slice0.
    assert (Hs : List.NoDup
              (List.map match_id
                 (StableSort.sort by_confidence
                    (included norm q threshold
                       (examined norm q threshold earlyReturn (JsObject.for_in o)))))).
    { eapply Permutation_NoDup.
      - apply Permutation_map, Permutation_sym, StableSortFacts.sort_perm.
      - unfold included. rewrite List.map_map. cbn.
        apply NoDup_map_filter.
        destruct (examined_prefix norm q threshold earlyReturn (JsObject.for_in o))
          as [rest Hrest].
        assert (Hfor : List.NoDup (List.map fst (JsObject.for_in o))).
        { eapply Permutation_NoDup; [|exact Hnd].
          apply Permutation_map, Permutation_sym, JsObjectFacts.for_in_perm. }
        rewrite Hrest, List.map_app in Hfor.
        eapply List.NoDup_app_remove_r. exact Hfor. }
    destruct (top_n <? 0)%Z; rewrite <- List.firstn_map; now apply NoDup_firstn. }
  split; [exact Hres|]. split; [exact Hincl|].
  rewrite <- (length_map match_id), <- (length_map fst o).
  now apply List.NoDup_incl_length.
Qed.

(** X7: a template with fewer than two descriptors never yields a good
    match: whatever the query, its count of good matches is 0. *)
Theorem single_descriptor_template_scores_zero (query templateDes : Mat)
    (knnMatches : list (list DMatch)) :
  (mat_rows templateDes < 2)%nat ->
  knnMatch norm query templateDes 2 = Ok knnMatches ->
  goodMatchesCount knnMatches = 0%Z.
Proof.
  intros Hrows Hk. rewrite knnMatch_spec in Hk.
  destruct (compatible query templateDes); [|discriminate].
  injection Hk as <-. rewrite count_confidence. unfold confidence_of.
  assert (Hnone : forall q, ratio_test norm q (mat_data templateDes) = false).
  { intros q. unfold ratio_test.
    pose proof (StableSortFacts.sort_length Qle_bool
                  (List.map (norm q) (mat_data templateDes))) as Hlen.
    rewrite length_map in Hlen. unfold mat_rows in Hrows.
    destruct (StableSort.sort Qle_bool (List.map (norm q) (mat_data templateDes)))
      as [|d1 [|d2 l]]; try reflexivity.
    simpl in Hlen. lia. }
  induction (mat_data query) as [|q rows IH]; [reflexivity|].
  simpl. now rewrite Hnone.
Qed.


End MatcherExtras.

(** X2, witness: the first match on "chara" compares the decoded query
    with both loaded templates, the numeric name first. *)
Lemma decoded_query_meets_every_template_witness :
  comparisons
    (trace (snd (matchEquipment NORM_L2 no_convertTo Sample.fs_chara Sample.zero32
                   "chara" 10 3 false initialState)))
  = [KnnMatch "3040001000"; KnnMatch "b"].
Proof.
  exact (proj1 (decoded_query_meets_every_template NORM_L2 no_convertTo
                  Sample.fs_chara Sample.blob32 Sample.zero32 "chara" 10 3
                  initialState initial_cache_wf eq_refl eq_refl)).
Defined.

(** X3, witness: loading and matching "chara" leaves "weapon/main" alone. *)
Lemma other_categories_untouched_witness :
  templateFeatures (loadFeaturesFromCache Sample.fs_chara "chara" initialState)
    !! "weapon/main" = templateFeatures initialState !! "weapon/main" /\
  templateFeatures
    (snd (matchEquipment NORM_L2 no_convertTo Sample.fs_chara Sample.zero32 "chara"
            10 3 false initialState))
    !! "weapon/main" = templateFeatures initialState !! "weapon/main".
Proof.
  apply (other_categories_untouched NORM_L2 no_convertTo Sample.fs_chara
           Sample.zero32 "chara" "weapon/main" 10 3 false initialState).
  discriminate.
Defined.

(** X4, witness: a match on a populated category. *)
Lemma loaded_category_needs_no_file_witness :
  templateFeatures
    (snd (matchEquipment NORM_L2 no_convertTo Sample.fs_chara Sample.query15
            "weapon/main" 10 3 false Sample.state_AB))
  = templateFeatures Sample.state_AB /\
  file_events
    (trace (snd (matchEquipment NORM_L2 no_convertTo Sample.fs_chara Sample.query15
                   "weapon/main" 10 3 false Sample.state_AB)))
  = file_events (trace Sample.state_AB).
Proof.
  exact (loaded_category_needs_no_file NORM_L2 no_convertTo Sample.fs_chara
           Sample.query15 "weapon/main" 10 3 false Sample.state_AB eq_refl).
Defined.

(** X5, witness: ten query descriptors cannot reach a threshold of 11. *)
Lemma confidence_at_most_query_rows_witness :
  fst (matchEquipment NORM_L2 no_convertTo Sample.fs_missing Sample.query10
         "weapon/main" 11 3 false Sample.state_nine) = [].
Proof.
  exact (proj2 (confidence_at_most_query_rows NORM_L2 no_convertTo Sample.fs_missing
                  Sample.query10 "weapon/main" 11 3 false Sample.state_nine eq_refl)
           eq_refl).
Defined.

(** X6, witness: at threshold 0 both templates of "chara" are reported,
    once each. *)
Lemma results_name_distinct_templates_witness :
  List.NoDup
    (List.map match_id
       (fst (matchEquipment NORM_L2 no_convertTo Sample.fs_chara Sample.zero32
               "chara" 0 3 false initialState))).
Proof.
  exact (proj1 (results_name_distinct_templates NORM_L2 no_convertTo Sample.fs_chara
                  Sample.zero32 "chara" 0 3 false initialState initial_cache_wf)).
Defined.

Example chara_at_threshold_zero :
  List.map match_id
    (fst (matchEquipment NORM_L2 no_convertTo Sample.fs_chara Sample.zero32
            "chara" 0 3 false initialState))
  = ["3040001000"; "b"].
Proof. vm_compute. reflexivity. Qed.

(** X7, witness: ten query descriptors against a template of one. *)
Lemma single_descriptor_template_scores_zero_witness :
  goodMatchesCount
    (knn_rows NORM_L2 2 (mat_data Sample.one_row) 0 (mat_data Sample.query10))
  = 0%Z.
Proof.
  apply (single_descriptor_template_scores_zero NORM_L2 Sample.query10
           Sample.one_row).
  - vm_compute. lia.
  - reflexivity.
Defined.


(** ** The request handler *)

Section HandlerFacts.
Variable norm : Descriptor -> Descriptor -> Q.
Variable convertTo : Mat -> Z -> result Mat.
Variable fs : FileSystem.

Lemma process_contents_cons c earlyReturn content cs st :
  process_contents norm convertTo fs c earlyReturn (content :: cs) st =
  match deserializeDescriptors content with
  | Throw (mkError message) =>
      (Failed message :: fst (process_contents norm convertTo fs c earlyReturn cs st),
       snd (process_contents norm convertTo fs c earlyReturn cs st))
  | Ok queryDes =>
      let r := matchEquipment norm convertTo fs queryDes c 10 3 earlyReturn st in
      (Matches (fst r)
         :: fst (process_contents norm convertTo fs c earlyReturn cs (snd r)),
       snd (process_contents norm convertTo fs c earlyReturn cs (snd r)))
  end.
Proof.
  cbn [process_contents].
  destruct (deserializeDescriptors content) as [queryDes|[message]].
  - cbv zeta.
    destruct (matchEquipment norm convertTo fs queryDes c 10 3 earlyReturn st)
      as [topMatches st1].
    cbn [fst snd].
    now destruct (process_contents norm convertTo fs c earlyReturn cs st1).
  - now destruct (process_contents norm convertTo fs c earlyReturn cs st).
Qed.

Lemma process_contents_app c earlyReturn xs ys st :
  process_contents norm convertTo fs c earlyReturn (xs ++ ys) st =
  (fst (process_contents norm convertTo fs c earlyReturn xs st) ++
   fst (process_contents norm convertTo fs c earlyReturn ys
          (snd (process_contents norm convertTo fs c earlyReturn xs st))),
   snd (process_contents norm convertTo fs c earlyReturn ys
          (snd (process_contents norm convertTo fs c earlyReturn xs st)))).
Proof.
  revert st. induction xs as [|x xs IH]; intros st.
  - cbn. now destruct (process_contents norm convertTo fs c earlyReturn ys st).
  - rewrite <- app_comm_cons, !process_contents_cons.
    destruct (deserializeDescriptors x) as [queryDes|[message]]; cbv zeta;
      rewrite IH; reflexivity.
Qed.

Lemma process_contents_length c earlyReturn cs st :
  length (fst (process_contents norm convertTo fs c earlyReturn cs st)) = length cs.
Proof.
  revert st. induction cs as [|x cs IH]; intros st; [reflexivity|].
  rewrite process_contents_cons.
  destruct (deserializeDescriptors x) as [queryDes|[message]]; cbn; now rewrite IH.
Qed.




(** X10: a blob that does not decode is recorded at its position and has
    no other effect: the outcomes of the other blobs and the final state are
    those of the request without it. *)
Theorem failed_blob_is_local (c : string) (earlyReturn : bool)
    (xs ys : list JsString) (bad : JsString) (message : string) (st : State) :
  deserializeDescriptors bad = Throw (mkError message) ->
  process_contents norm convertTo fs c earlyReturn (xs ++ bad :: ys) st =
  (firstn (length xs)
     (fst (process_contents norm convertTo fs c earlyReturn (xs ++ ys) st))
   ++ Failed message
   :: skipn (length xs)
        (fst (process_contents norm convertTo fs c earlyReturn (xs ++ ys) st)),
   snd (process_contents norm convertTo fs c earlyReturn (xs ++ ys) st)).
Proof.
  intros Hbad.
  rewrite !process_contents_app, process_contents_cons, Hbad. cbn [fst snd].
  pose proof (process_contents_length c earlyReturn xs st) as Hlen.
  rewrite List.firstn_app, List.skipn_app, Hlen, Nat.sub_diag.
  rewrite <- Hlen at 1 2. rewrite List.firstn_all, List.skipn_all.
  cbn. now rewrite app_nil_r.
Qed.

Lemma matchEquipment_reads queryDes c threshold top_n earlyReturn st :
  reads (trace (snd (matchEquipment norm convertTo fs queryDes c threshold top_n
                       earlyReturn st)))
  = reads (trace (loadFeaturesFromCache fs c st)).
Proof.
  destruct (matchEquipment_effects norm convertTo fs queryDes c threshold top_n
              earlyReturn st) as [l ->].
  cbn [trace]. now rewrite reads_app, knn_events_no_read, app_nil_r, ensureLoaded_load.
Qed.

Lemma load_reads_le c st :
  (length (reads (trace (loadFeaturesFromCache fs c st)))
   <= length (reads (trace st)) + 1)%nat.
Proof.
  destruct (has_features (templateFeatures st) c) eqn:Hf.
  - rewrite load_when_loaded by exact Hf. lia.
  - destruct (load_when_unloaded fs c st Hf) as [_ ->].
    rewrite reads_app, length_app. unfold load_events.
    destruct (fs (cacheFileName c)); cbn; lia.
Qed.

Lemma process_contents_loaded c earlyReturn cs st :
  has_features (templateFeatures st) c = true ->
  reads (trace (snd (process_contents norm convertTo fs c earlyReturn cs st)))
  = reads (trace st).
Proof.
  revert st. induction cs as [|x cs IH]; intros st Hf; [reflexivity|].
  rewrite process_contents_cons.
  destruct (deserializeDescriptors x) as [queryDes|[message]]; cbv zeta; cbn [snd].
  - rewrite IH.
    + now rewrite matchEquipment_reads, load_when_loaded.
    + now rewrite matchEquipment_cache, ensureLoaded_load, load_when_loaded.
  - now apply IH.
Qed.

Lemma process_contents_unusable c earlyReturn cs st :
  has_features (templateFeatures st) c = false ->
  loaded_object fs c = [] ->
  has_features
    (templateFeatures (snd (process_contents norm convertTo fs c earlyReturn cs st)))
    c = false.
Proof.
  intros Hf Ho. revert st Hf. induction cs as [|x cs IH]; intros st Hf; [exact Hf|].
  rewrite process_contents_cons.
  destruct (deserializeDescriptors x) as [queryDes|[message]]; cbv zeta; cbn [snd].
  - apply IH. rewrite matchEquipment_cache. now apply ensureLoaded_unusable.
  - now apply IH.
Qed.

Lemma process_contents_reads c earlyReturn cs st :
  has_features
    (templateFeatures (snd (process_contents norm convertTo fs c earlyReturn cs st)))
    c = true ->
  (length (reads (trace (snd (process_contents norm convertTo fs c earlyReturn cs st))))
   <= length (reads (trace st)) + 1)%nat.
Proof.
  revert st. induction cs as [|x cs IH]; intros st; [cbn; lia|].
  rewrite process_contents_cons.
  destruct (deserializeDescriptors x) as [queryDes|[message]]; cbv zeta; cbn [snd];
    [|apply IH].
  intros Hafter.
  set (st1 := snd (matchEquipment norm convertTo fs queryDes c 10 3 earlyReturn st))
    in *.
  assert (Hc1 : templateFeatures st1 = templateFeatures (loadFeaturesFromCache fs c st))
    by (subst st1; now rewrite matchEquipment_cache, ensureLoaded_load).
  assert (Hr1 : reads (trace st1) = reads (trace (loadFeaturesFromCache fs c st)))
    by (subst st1; apply matchEquipment_reads).
  destruct (has_features (templateFeatures st1) c) eqn:Hf1.
  - rewrite process_contents_loaded by exact Hf1. rewrite Hr1. apply load_reads_le.
  - exfalso.
    destruct (has_features (templateFeatures st) c) eqn:Hf.
    + rewrite Hc1, load_when_loaded in Hf1 by exact Hf. congruence.
    + assert (Ho : loaded_object fs c = []).
      { apply has_features_false in Hf1.
        rewrite Hc1, load_lookup_unloaded in Hf1 by exact Hf.
        destruct Hf1 as [Hf1|Hf1]; congruence. }
      rewrite (process_contents_unusable c earlyReturn cs st1 Hf1 Ho) in Hafter.
      discriminate.
Qed.

(** X11: when a request leaves its category with features, the whole
    request has read the artifact at most once, however many blobs it
    carries. *)
Theorem request_reads_artifact_at_most_once (reqBody : option Body) (c : string)
    (st : State) :
  has_features
    (templateFeatures (snd (handleDetectRequest norm convertTo fs reqBody c st)))
    c = true ->
  (length (reads (trace (snd (handleDetectRequest norm convertTo fs reqBody c st))))
   <= length (reads (trace st)) + 1)%nat.
Proof.
  unfold handleDetectRequest.
  destruct reqBody as [body|]; [|cbn; lia].
  destruct (contents body) as [cs|]; [|cbn; lia].
  destruct (length cs =? 0)%nat; [cbn; lia|].
  pose proof (process_contents_reads c (is_true_string (earlyReturn_field body)) cs st)
    as H.
  destruct (process_contents norm convertTo fs c _ cs st) as [results st'].
  exact H.
Qed.

End HandlerFacts.

(** X10, witness: a blob of three bytes between two descriptors. *)
Lemma failed_blob_is_local_witness :
  process_contents NORM_L2 no_convertTo Sample.fs_chara "chara" false
    ([Sample.blob32] ++ units "QUJD" :: [Sample.blob32]) initialState =
  (firstn 1
     (fst (process_contents NORM_L2 no_convertTo Sample.fs_chara "chara" false
             ([Sample.blob32] ++ [Sample.blob32]) initialState))
   ++ Failed "Failed to deserialize base64 content: Invalid descriptor buffer length: 3. Must be a multiple of 32."
   :: skipn 1
        (fst (process_contents NORM_L2 no_convertTo Sample.fs_chara "chara" false
                ([Sample.blob32] ++ [Sample.blob32]) initialState)),
   snd (process_contents NORM_L2 no_convertTo Sample.fs_chara "chara" false
          ([Sample.blob32] ++ [Sample.blob32]) initialState)).
Proof.
  exact (failed_blob_is_local NORM_L2 no_convertTo Sample.fs_chara "chara" false
           [Sample.blob32] [Sample.blob32] (units "QUJD") _ initialState eq_refl).
Defined.

Example mixed_request :
  fst (handleDetectRequest NORM_L2 no_convertTo Sample.fs_chara
         (Some Sample.body_mixed) "chara" initialState)
  = Status200
      [Matches [];
       Failed "Failed to deserialize base64 content: Invalid descriptor buffer length: 3. Must be a multiple of 32.";
       Matches []].
Proof. vm_compute. reflexivity. Qed.

(** X11, witness: three blobs, one read. *)
Lemma request_reads_artifact_at_most_once_witness :
  (length (reads (trace (snd (handleDetectRequest NORM_L2 no_convertTo
                                Sample.fs_chara (Some Sample.body_mixed) "chara"
                                initialState))))
   <= length (reads (trace initialState)) + 1)%nat.
Proof.
  exact (request_reads_artifact_at_most_once NORM_L2 no_convertTo Sample.fs_chara
           (Some Sample.body_mixed) "chara" initialState eq_refl).
Defined.

(** ** Overlapping calls, in general *)

Section ScheduleFacts.
Variable norm : Descriptor -> Descriptor -> Q.
Variable convertTo : Mat -> Z -> result Mat.
Variable fs : FileSystem.
Variable c : string.

Lemma finish_reads k st :
  reads (trace (snd (finish norm convertTo c k st))) = reads (trace st) /\
  exists r, fst (finish norm convertTo c k st) = Done r.
Proof.
  unfold finish.
  destruct (match_loaded_effects norm convertTo (call_query k) c (call_threshold k)
              (call_top_n k) (call_earlyReturn k) st) as [l Hl].
  destruct (match_loaded norm convertTo (call_query k) c (call_threshold k)
              (call_top_n k) (call_earlyReturn k) st) as [r st'].
  cbn [fst snd] in *. subst st'. cbn [trace]. split; [|eauto].
  now rewrite reads_app, knn_events_no_read, app_nil_r.
Qed.

(** One uninterrupted run never adds more than the one read that the call
    still had to make. *)
Lemma step_task_reads t st :
  (length (reads (trace (snd (step_task norm convertTo fs c t st))))
   + may_read (fst (step_task norm convertTo fs c t st))
   <= length (reads (trace st)) + may_read t)%nat.
Proof.
  destruct t as [k|k|k|k|r]; cbn [step_task].
  - destruct (has_features (templateFeatures st) c); cbn [negb].
    + destruct (finish_reads k st) as [-> [r ->]]. cbn [may_read]. lia.
    + cbn [fst snd emit trace may_read]. rewrite reads_app, length_app.
      cbn [reads List.filter is_read length]. lia.
  - destruct (fs (cacheFileName c));
      cbn [fst snd emit trace may_read]; rewrite ?reads_app, ?length_app;
      cbn [reads List.filter is_read length]; lia.
  - destruct (fs (cacheFileName c)) as [| | |a]; cbn [fst snd may_read]; try lia.
    destruct (template_names a) as [names|], (descriptors_list a) as [blobs|];
      cbn [fst snd may_read]; try lia.
    destruct (length names =? length blobs)%nat;
      cbn [negb fst snd trace may_read]; lia.
  - destruct (has_features (templateFeatures st) c); cbn [negb].
    + destruct (finish_reads k st) as [-> [r ->]]. cbn [may_read]. lia.
    + cbn [fst snd may_read]. lia.
  - cbn [fst snd may_read]. lia.
Qed.

Lemma pending_insert tasks i t t' :
  tasks !! i = Some t ->
  (pending (<[i := t']> tasks) + may_read t = pending tasks + may_read t')%nat.
Proof.
  unfold pending, list_sum. revert i.
  induction tasks as [|x tasks IH]; intros i Hl.
  - destruct i; discriminate.
  - destruct i as [|i]; simpl in *.
    + injection Hl as ->. lia.
    + specialize (IH i Hl). lia.
Qed.

Lemma resume_reads i tasks st :
  (length (reads (trace (snd (resume norm convertTo fs c i (tasks, st)))))
   + pending (fst (resume norm convertTo fs c i (tasks, st)))
   <= length (reads (trace st)) + pending tasks)%nat.
Proof.
  destruct (tasks !! i) as [t|] eqn:Hl.
  - rewrite (resume_at norm convertTo fs c i tasks st t Hl). cbn [fst snd].
    pose proof (step_task_reads t st).
    pose proof (pending_insert tasks i t
                  (fst (step_task norm convertTo fs c t st)) Hl).
    lia.
  - unfold resume. cbn [fst snd]. rewrite Hl. cbn [fst snd]. lia.
Qed.

Lemma run_schedule_reads schedule tasks st :
  (length (reads (trace (snd (run_schedule norm convertTo fs c schedule (tasks, st)))))
   + pending (fst (run_schedule norm convertTo fs c schedule (tasks, st)))
   <= length (reads (trace st)) + pending tasks)%nat.
Proof.
  unfold run_schedule. revert tasks st.
  induction schedule as [|i schedule IH]; intros tasks st;
    [cbn [fold_left fst snd]; lia|].
  cbn [fold_left].
  pose proof (resume_reads i tasks st) as Hr.
  destruct (resume norm convertTo fs c i (tasks, st)) as [tasks' st'].
  specialize (IH tasks' st'). cbn [fst snd] in Hr. lia.
Qed.

Lemma pending_le tasks : (pending tasks <= length tasks)%nat.
Proof.
  unfold pending, list_sum. induction tasks as [|t tasks IH]; simpl; [lia|].
  destruct t; simpl; lia.
Qed.

(** X12: however the calls for a category are interleaved, each call reads
    the artifact at most once: the number of reads never grows by more than
    the number of calls. *)
Theorem every_call_reads_at_most_once (schedule : list nat) (tasks : list Task)
    (st : State) :
  (length (reads (trace (snd (run_schedule norm convertTo fs c schedule (tasks, st)))))
   <= length (reads (trace st)) + length tasks)%nat.
Proof.
  pose proof (run_schedule_reads schedule tasks st).
  pose proof (pending_le tasks). lia.
Qed.

Lemma run_schedule_app s1 s2 sys :
  run_schedule norm convertTo fs c (s1 ++ s2) sys
  = run_schedule norm convertTo fs c s2 (run_schedule norm convertTo fs c s1 sys).
Proof. unfold run_schedule. apply fold_left_app. Qed.

Lemma resume_middle done (p : Task * State) rest :
  resume norm convertTo fs c (length done) (done ++ fst p :: rest, snd p)
  = (done ++ fst (step2 norm convertTo fs c p) :: rest,
     snd (step2 norm convertTo fs c p)).
Proof.
  rewrite (resume_at norm convertTo fs c (length done) _ (snd p) (fst p))
    by now apply list_lookup_middle.
  unfold step2. f_equal. rewrite insert_app_r_alt by lia.
  now rewrite Nat.sub_diag.
Qed.

(** Four resumptions of the call at one position. *)
Lemma run_four done k rest st :
  run_schedule norm convertTo fs c
    [length done; length done; length done; length done]
    (done ++ Fresh k :: rest, st)
  = (done ++
       Done (fst (matchEquipment norm convertTo fs (call_query k) c
                    (call_threshold k) (call_top_n k) (call_earlyReturn k) st))
       :: rest,
     snd (matchEquipment norm convertTo fs (call_query k) c (call_threshold k)
            (call_top_n k) (call_earlyReturn k) st)).
Proof.
  unfold run_schedule. cbn [fold_left].
  change (done ++ Fresh k :: rest, st)
    with (done ++ fst (Fresh k, st) :: rest, snd (Fresh k, st)).
  rewrite !resume_middle, step_task_alone. reflexivity.
Qed.

Lemma serial_run done calls st :
  run_schedule norm convertTo fs c (serial (length done) (length calls))
    (done ++ List.map Fresh calls, st)
  = (done ++ List.map Done (fst (run_matches norm convertTo fs c calls st)),
     snd (run_matches norm convertTo fs c calls st)).
Proof.
  revert done st. induction calls as [|k calls IH]; intros done st.
  - reflexivity.
  - cbn [length serial List.map run_matches].
    rewrite run_schedule_app, run_four.
    destruct (matchEquipment norm convertTo fs (call_query k) c (call_threshold k)
                (call_top_n k) (call_earlyReturn k) st) as [r st1].
    cbn [fst snd].
    specialize (IH (done ++ [Done r]) st1).
    rewrite length_app, Nat.add_1_r, <- app_assoc in IH. cbn [app] in IH.
    rewrite IH.
    destruct (run_matches norm convertTo fs c calls st1) as [rs st2].
    cbn [fst snd List.map]. now rewrite <- app_assoc.
Qed.

(** X13: calls that do not overlap, each resumed until it is done before
    the next one starts, give the results and the final state of the same
    calls of [matchEquipment] made in sequence. *)
Theorem serial_schedule_is_sequential (calls : list Call) (st : State) :
  run_schedule norm convertTo fs c (serial 0 (length calls))
    (List.map Fresh calls, st)
  = (List.map Done (fst (run_matches norm convertTo fs c calls st)),
     snd (run_matches norm convertTo fs c calls st)).
Proof. exact (serial_run [] calls st). Qed.

End ScheduleFacts.

(** ** The codec on standard text *)

Module Base64Facts.
Import Base64 Base64Text.

Lemma forall_below_spec (n : nat) (p : N -> bool) :
  forall_below n p = true -> forall x, (x < N.of_nat n)%N -> p x = true.
Proof.
  unfold forall_below. rewrite forallb_forall. intros H x Hx.
  apply H. apply in_map_iff. exists (N.to_nat x).
  split; [apply N2Nat.id|]. apply in_seq. lia.
Qed.

Lemma opt_eqb_eq (a b : option N) : opt_eqb a b = true -> a = b.
Proof.
  destruct a, b; simpl; try discriminate; try reflexivity.
  intros H. apply N.eqb_eq in H. now subst.
Qed.

Lemma forall_below2_spec (n : nat) (p : N -> N -> bool) :
  forall_below n (fun x => forall_below n (p x)) = true ->
  forall x y, (x < N.of_nat n)%N -> (y < N.of_nat n)%N -> p x y = true.
Proof.
  intros H x y Hx Hy.
  apply (forall_below_spec n (p x)); [|exact Hy].
  exact (forall_below_spec n _ H x Hx).
Qed.

Lemma alphabet_sextet0 x :
  (x < 256)%N -> unbase64 (N_of_ascii (char0 x)) = Some (sextet0 x).
Proof.
  intros Hx. apply opt_eqb_eq.
  apply (forall_below_spec 256
           (fun x => opt_eqb (unbase64 (N_of_ascii (char0 x))) (Some (sextet0 x))));
    [vm_compute; reflexivity | exact Hx].
Qed.

Lemma alphabet_sextet1 x y :
  (x < 256)%N -> (y < 256)%N ->
  unbase64 (N_of_ascii (char1 x y)) = Some (sextet1 x y).
Proof.
  intros Hx Hy. apply opt_eqb_eq.
  apply (forall_below2_spec 256
           (fun x y => opt_eqb (unbase64 (N_of_ascii (char1 x y)))
                               (Some (sextet1 x y))));
    [vm_compute; reflexivity | exact Hx | exact Hy].
Qed.

Lemma alphabet_sextet2 y z :
  (y < 256)%N -> (z < 256)%N ->
  unbase64 (N_of_ascii (char2 y z)) = Some (sextet2 y z).
Proof.
  intros Hy Hz. apply opt_eqb_eq.
  apply (forall_below2_spec 256
           (fun y z => opt_eqb (unbase64 (N_of_ascii (char2 y z)))
                               (Some (sextet2 y z))));
    [vm_compute; reflexivity | exact Hy | exact Hz].
Qed.

Lemma alphabet_sextet3 z :
  (z < 256)%N -> unbase64 (N_of_ascii (char3 z)) = Some (sextet3 z).
Proof.
  intros Hz. apply opt_eqb_eq.
  apply (forall_below_spec 256
           (fun z => opt_eqb (unbase64 (N_of_ascii (char3 z))) (Some (sextet3 z))));
    [vm_compute; reflexivity | exact Hz].
Qed.

Lemma byte0_sextets x y :
  (x < 256)%N -> (y < 256)%N -> byte0 (sextet0 x) (sextet1 x y) = x.
Proof.
  intros Hx Hy. apply N.eqb_eq.
  apply (forall_below2_spec 256
           (fun x y => (byte0 (sextet0 x) (sextet1 x y) =? x)%N));
    [vm_compute; reflexivity | exact Hx | exact Hy].
Qed.

Lemma byte1_sextets x y z :
  (x < 256)%N -> (y < 256)%N -> (z < 256)%N ->
  byte1 (sextet1 x y) (sextet2 y z) = y.
Proof.
  intros Hx Hy Hz. unfold byte1.
  assert (H1 : N.land (sextet1 x y) 15 = N.shiftr y 4).
  { apply N.eqb_eq.
    apply (forall_below2_spec 256
             (fun x y => (N.land (sextet1 x y) 15 =? N.shiftr y 4)%N));
      [vm_compute; reflexivity | exact Hx | exact Hy]. }
  assert (H2 : N.shiftr (N.land (sextet2 y z) 60) 2 = N.land y 15).
  { apply N.eqb_eq.
    apply (forall_below2_spec 256
             (fun y z => (N.shiftr (N.land (sextet2 y z) 60) 2 =? N.land y 15)%N));
      [vm_compute; reflexivity | exact Hy | exact Hz]. }
  rewrite H1, H2. apply N.eqb_eq.
  apply (forall_below_spec 256
           (fun y => (N.lor (N.shiftl (N.shiftr y 4) 4) (N.land y 15) =? y)%N));
    [vm_compute; reflexivity | exact Hy].
Qed.

Lemma byte2_sextets y z :
  (y < 256)%N -> (z < 256)%N -> byte2 (sextet2 y z) (sextet3 z) = z.
Proof.
  intros Hy Hz. apply N.eqb_eq.
  apply (forall_below2_spec 256
           (fun y z => (byte2 (sextet2 y z) (sextet3 z) =? z)%N));
    [vm_compute; reflexivity | exact Hy | exact Hz].
Qed.

Lemma list_ind3 {A} (P : list A -> Prop) :
  P [] -> (forall x, P [x]) -> (forall x y, P [x; y]) ->
  (forall x y z l, P l -> P (x :: y :: z :: l)) ->
  forall l, P l.
Proof.
  intros H0 H1 H2 H3 l.
  assert (H : P l /\ (forall x, P (x :: l)) /\ (forall x y, P (x :: y :: l))).
  { induction l as [|a l (IH0 & IH1 & IH2)]; [auto|].
    split; [apply IH1|]. split; [intros x; apply IH2|].
    intros x y. now apply H3. }
  apply H.
Qed.

Lemma is_byte_lt b : is_byte b = true <-> (b < 256)%N.
Proof. unfold is_byte. apply N.ltb_lt. Qed.

Lemma units_String (c : ascii) (s : string) :
  units (String c s) = N_of_ascii c :: units s.
Proof. reflexivity. Qed.

(** Decoding the standard text of a byte sequence gives the sequence. *)
Lemma decode_encode (bytes : list N) :
  Forall (fun b => is_byte b = true) bytes -> decode (units (encode bytes)) = bytes.
Proof.
  unfold decode. induction bytes as [|x|x y|x y z l IH] using list_ind3; intros Hb.
  - reflexivity.
  - inversion Hb as [|? ? Hx _]; subst. apply is_byte_lt in Hx.
    cbn [encode]. rewrite !units_String. cbn [sextets].
    rewrite (alphabet_sextet0 x Hx), (alphabet_sextet1 x 0 Hx) by reflexivity.
    cbn. f_equal. now apply byte0_sextets.
  - inversion Hb as [|? ? Hx Hb']; subst. inversion Hb' as [|? ? Hy _]; subst.
    apply is_byte_lt in Hx, Hy.
    cbn [encode]. rewrite !units_String. cbn [sextets].
    rewrite (alphabet_sextet0 x Hx), (alphabet_sextet1 x y Hx Hy),
      (alphabet_sextet2 y 0 Hy) by reflexivity.
    cbn.
    f_equal; [now apply byte0_sextets|]. f_equal.
    now apply (byte1_sextets x y 0).
  - inversion Hb as [|? ? Hx Hb']; subst. inversion Hb' as [|? ? Hy Hb'']; subst.
    inversion Hb'' as [|? ? Hz Hl]; subst.
    apply is_byte_lt in Hx, Hy, Hz.
    cbn [encode]. rewrite !units_String. cbn [sextets].
    rewrite (alphabet_sextet0 x Hx), (alphabet_sextet1 x y Hx Hy),
      (alphabet_sextet2 y z Hy Hz), (alphabet_sextet3 z Hz).
    cbn [groups]. rewrite (IH Hl).
    f_equal; [now apply byte0_sextets|].
    f_equal; [now apply (byte1_sextets x y z)|].
    f_equal. now apply byte2_sextets.
Qed.

Lemma mask_mod64 (a m : N) : N.land 63 m = m -> N.land a m = N.land (a mod 64) m.
Proof.
  intros Hm. change 64%N with (2 ^ 6)%N. rewrite <- N.land_ones.
  change (N.ones 6) with 63%N. now rewrite <- N.land_assoc, Hm.
Qed.

Lemma byte0_is_byte a b : is_byte (byte0 a b) = true.
Proof.
  unfold byte0. rewrite (mask_mod64 a 63), (mask_mod64 b 48) by reflexivity.
  apply (forall_below2_spec 64
           (fun a b => is_byte (N.lor (N.shiftl (N.land a 63) 2)
                                      (N.shiftr (N.land b 48) 4))));
    [vm_compute; reflexivity | |]; now apply N.mod_lt.
Qed.

Lemma byte1_is_byte b c : is_byte (byte1 b c) = true.
Proof.
  unfold byte1. rewrite (mask_mod64 b 15), (mask_mod64 c 60) by reflexivity.
  apply (forall_below2_spec 64
           (fun b c => is_byte (N.lor (N.shiftl (N.land b 15) 4)
                                      (N.shiftr (N.land c 60) 2))));
    [vm_compute; reflexivity | |]; now apply N.mod_lt.
Qed.

Lemma byte2_is_byte c d : is_byte (byte2 c d) = true.
Proof.
  unfold byte2. rewrite (mask_mod64 c 3), (mask_mod64 d 63) by reflexivity.
  apply (forall_below2_spec 64
           (fun c d => is_byte (N.lor (N.shiftl (N.land c 3) 6) (N.land d 63))));
    [vm_compute; reflexivity | |]; now apply N.mod_lt.
Qed.

Lemma groups_bytes (l : list N) : Forall (fun b => is_byte b = true) (groups l).
Proof.
  assert (H : forall n l, (length l <= n)%nat ->
                          Forall (fun b => is_byte b = true) (groups l)).
  { clear l. induction n as [|n IH]; intros l Hl.
    - destruct l; [constructor | simpl in Hl; lia].
    - destruct l as [|a [|b [|c [|d rest]]]]; cbn [groups].
      + constructor.
      + constructor.
      + repeat constructor. apply byte0_is_byte.
      + repeat constructor; [apply byte0_is_byte | apply byte1_is_byte].
      + constructor; [apply byte0_is_byte|].
        constructor; [apply byte1_is_byte|].
        constructor; [apply byte2_is_byte|].
        apply IH. simpl in Hl. lia. }
  exact (H (length l) l (le_n _)).
Qed.

Lemma sextets_skip (s1 s2 : JsString) (c : N) :
  unbase64 c = None -> is_pad c = false ->
  sextets (s1 ++ c :: s2) = sextets (s1 ++ s2).
Proof.
  intros Hc Hne. induction s1 as [|a s1 IH]; simpl.
  - now rewrite Hc, Hne.
  - destruct (unbase64 a); [now rewrite IH|].
    destruct (is_pad a); [reflexivity | exact IH].
Qed.

Lemma is_pad_unbase64 (p : N) : is_pad p = true -> unbase64 p = None.
Proof.
  unfold is_pad, unbase64. intros H. apply N.eqb_eq in H. now rewrite H.
Qed.

Lemma sextets_stop (s1 s2 : JsString) (p : N) :
  is_pad p = true -> sextets (s1 ++ p :: s2) = sextets s1.
Proof.
  intros Hp. induction s1 as [|a s1 IH]; simpl.
  - now rewrite (is_pad_unbase64 p Hp), Hp.
  - destruct (unbase64 a); [now rewrite IH|].
    destruct (is_pad a); [reflexivity | exact IH].
Qed.

Lemma low_byte_idempotent (c : N) : N.land (N.land c 255) 255 = N.land c 255.
Proof. rewrite <- N.land_assoc. reflexivity. Qed.

(** Only the low byte of a code unit counts. *)
Lemma sextets_low_byte (s : JsString) :
  sextets (List.map (fun c => N.land c 255) s) = sextets s.
Proof.
  induction s as [|c s IH]; [reflexivity|]. cbn [List.map sextets].
  assert (Hu : unbase64 (N.land c 255) = unbase64 c)
    by (unfold unbase64; now rewrite low_byte_idempotent).
  assert (Hp : is_pad (N.land c 255) = is_pad c)
    by (unfold is_pad; now rewrite low_byte_idempotent).
  now rewrite Hu, Hp, IH.
Qed.

End Base64Facts.

Lemma rows_of_concat_rows (rows : list Descriptor) (cols : nat) :
  Forall (fun d => length d = cols) rows ->
  rows_of (length rows) cols (concat rows) = rows /\
  length (concat rows) = (length rows * cols)%nat.
Proof.
  induction 1 as [|d rows Hd _ [IH1 IH2]]; [split; reflexivity|].
  cbn [length concat rows_of]. split.
  - rewrite List.firstn_app, <- Hd, List.firstn_all, Nat.sub_diag. cbn [firstn].
    rewrite app_nil_r. f_equal.
    rewrite List.skipn_app, List.skipn_all, Nat.sub_diag. cbn. rewrite Hd. exact IH1.
  - rewrite length_app, IH2, Hd. lia.
Qed.

(** X14: the codec inverts standard base64 text: for a non-empty sequence
    of 32-byte descriptors, decoding the RFC 4648 text of their
    concatenation yields the [CV_8U] matrix with exactly these rows. *)
Theorem encoded_descriptors_round_trip (rows : list Descriptor) :
  rows <> [] ->
  Forall (fun d => length d = 32%nat) rows ->
  Forall (Forall (fun b => Base64Text.is_byte b = true)) rows ->
  deserializeDescriptors (units (Base64Text.encode (concat rows)))
  = Ok (mkMat CV_8U 32 rows).
Proof.
  intros Hne Hw Hb.
  destruct (rows_of_concat_rows rows 32 Hw) as [Hrows Hlen].
  unfold deserializeDescriptors.
  rewrite Base64Facts.decode_encode by now apply List.Forall_concat.
  rewrite Hlen. unfold descriptorSize.
  rewrite Nat.Div0.mod_mul, Nat.div_mul by discriminate. cbn [Nat.eqb negb].
  destruct rows as [|d rows']; [contradiction|].
  cbn [length Nat.eqb]. unfold matFromArray. f_equal. f_equal. exact Hrows.
Qed.

(** X14, witness: one descriptor of zero bytes. *)
Lemma encoded_descriptors_round_trip_witness :
  deserializeDescriptors (units (Base64Text.encode (concat [repeat 0%N 32])))
  = Ok (mkMat CV_8U 32 [repeat 0%N 32]).
Proof.
  apply (encoded_descriptors_round_trip [repeat 0%N 32]).
  - discriminate.
  - repeat constructor.
  - repeat constructor.
Defined.

Example encode_zero_descriptor :
  units (Base64Text.encode (concat [repeat 0%N 32])) = Sample.blob32.
Proof. vm_compute. reflexivity. Qed.

(** X15: every element of every decoded descriptor is a byte. *)
Theorem decoded_elements_are_bytes (s : JsString) (m : Mat) :
  deserializeDescriptors s = Ok m ->
  Forall (Forall (fun b => (b < 256)%N)) (mat_data m).
Proof.
  intros Hd. destruct (deserializeDescriptors_ok s m Hd) as (_ & _ & _ & Hc & _).
  apply List.Forall_concat. rewrite Hc.
  eapply List.Forall_impl; [|apply Base64Facts.groups_bytes].
  intros b Hb. now apply Base64Facts.is_byte_lt.
Qed.

(** X15, witness. *)
Lemma decoded_elements_are_bytes_witness :
  Forall (Forall (fun b => (b < 256)%N)) (mat_data Sample.zero32).
Proof.
  exact (decoded_elements_are_bytes Sample.blob32 Sample.zero32 eq_refl).
Defined.

(** X16: what a blob decodes to depends only on the low bytes of its code
    units, and among these only on the characters of the alphabet that come
    before the first ['=']: a unit whose low byte is outside the alphabet,
    such as a line break, can be removed, and so can everything from the
    first unit whose low byte is ['='] on. *)
Theorem blob_noise_is_ignored (s1 s2 : JsString) (c p : N) :
  Base64.unbase64 c = None -> Base64.is_pad c = false -> Base64.is_pad p = true ->
  deserializeDescriptors (s1 ++ c :: s2) = deserializeDescriptors (s1 ++ s2) /\
  deserializeDescriptors (s1 ++ p :: s2) = deserializeDescriptors s1 /\
  deserializeDescriptors (List.map (fun u => N.land u 255) s1)
    = deserializeDescriptors s1.
Proof.
  intros Hc Hne Hp. unfold deserializeDescriptors, Base64.decode.
  now rewrite Base64Facts.sextets_skip, (Base64Facts.sextets_stop s1 s2 p Hp),
    Base64Facts.sextets_low_byte.
Qed.

(** X16, witness: the blob "QUJ" followed by the code unit U+0141, which is
    read as ['A']; a line feed after it, and text after a padding. *)
Lemma blob_noise_is_ignored_witness :
  deserializeDescriptors ([81; 85; 74; 321]%N ++ 10%N :: units "QUJD")
    = deserializeDescriptors ([81; 85; 74; 321]%N ++ units "QUJD") /\
  deserializeDescriptors ([81; 85; 74; 321]%N ++ 61%N :: units "QUJD")
    = deserializeDescriptors [81; 85; 74; 321]%N /\
  deserializeDescriptors (List.map (fun u => N.land u 255) [81; 85; 74; 321]%N)
    = deserializeDescriptors [81; 85; 74; 321]%N.
Proof.
  apply (blob_noise_is_ignored [81; 85; 74; 321]%N (units "QUJD") 10%N 61%N);
    reflexivity.
Defined.

Example low_byte_of_unit :
  Base64.decode [81; 85; 74; 321]%N = Base64.decode (units "QUJA").
Proof. reflexivity. Qed.

(** ** Thresholds and ranking *)

Section Thresholds.
Variable norm : Descriptor -> Descriptor -> Q.
Variable convertTo : Mat -> Z -> result Mat.

Lemma included_raise query threshold threshold' templates :
  (threshold <= threshold')%Z ->
  included norm query threshold' templates
  = List.filter (at_least threshold') (included norm query threshold templates).
Proof.
  intros Hle. induction templates as [|t l IH]; [reflexivity|].
  rewrite !included_cons.
  destruct (passes norm query threshold' t) eqn:Hp'.
  - apply passes_iff in Hp' as (H1 & H2 & H3).
    assert (Hp : passes norm query threshold t = true)
      by (apply passes_iff; repeat split; auto; lia).
    rewrite Hp. cbn [List.filter]. unfold at_least at 1. cbn [confidence to_match].
    apply Z.leb_le in H3. rewrite H3. now rewrite IH.
  - destruct (passes norm query threshold t) eqn:Hp; [|exact IH].
    cbn [List.filter]. unfold at_least at 1. cbn [confidence to_match].
    destruct (threshold' <=? confidence_of norm query (snd t))%Z eqn:Hc; [|exact IH].
    apply passes_iff in Hp as (H1 & H2 & _). apply Z.leb_le in Hc.
    assert (passes norm query threshold' t = true)
      by (apply passes_iff; repeat split; auto).
    congruence.
Qed.

Lemma filter_insert_below threshold x l :
  at_least threshold x = false ->
  List.filter (at_least threshold) (StableSort.insert by_confidence x l)
  = List.filter (at_least threshold) l.
Proof.
  intros Hx. induction l as [|y l IH]; simpl; [now rewrite Hx|].
  destruct (by_confidence x y); simpl.
  - now rewrite Hx.
  - now rewrite IH.
Qed.

Lemma insert_front x l :
  Forall (fun y => by_confidence x y = true) l ->
  StableSort.insert by_confidence x l = x :: l.
Proof. intros H. destruct H as [|y l Hy _]; simpl; [reflexivity | now rewrite Hy]. Qed.

Lemma Forall_filter_keep {A} (P : A -> Prop) (p : A -> bool) (l : list A) :
  Forall P l -> Forall P (List.filter p l).
Proof.
  induction 1 as [|z l Hz _ IH]; simpl; [constructor|].
  destruct (p z); [constructor; auto | exact IH].
Qed.

Lemma filter_insert_above threshold x l :
  StronglySorted (fun a b => (confidence b <= confidence a)%Z) l ->
  at_least threshold x = true ->
  List.filter (at_least threshold) (StableSort.insert by_confidence x l)
  = StableSort.insert by_confidence x (List.filter (at_least threshold) l).
Proof.
  intros Hs Hx. induction Hs as [|y l Hs IH Hy].
  - simpl. now rewrite Hx.
  - cbn [StableSort.insert]. destruct (by_confidence x y) eqn:Hxy.
    + rewrite insert_front.
      * cbn [List.filter]. now rewrite Hx.
      * apply Forall_filter_keep. constructor; [exact Hxy|].
        eapply List.Forall_impl; [|exact Hy]. intros z Hz.
        unfold by_confidence in *. apply Z.leb_le. apply Z.leb_le in Hxy. lia.
    + assert (Hyt : at_least threshold y = true).
      { unfold at_least, by_confidence in *.
        apply Z.leb_le. apply Z.leb_le in Hx. apply Z.leb_gt in Hxy. lia. }
      cbn [List.filter]. rewrite Hyt. cbn [StableSort.insert].
      rewrite Hxy. now rewrite IH.
Qed.

Lemma sort_filter threshold l :
  List.filter (at_least threshold) (StableSort.sort by_confidence l)
  = StableSort.sort by_confidence (List.filter (at_least threshold) l).
Proof.
  induction l as [|x l IH]; [reflexivity|]. cbn [StableSort.sort List.filter].
  destruct (at_least threshold x) eqn:Hx.
  - rewrite filter_insert_above; [|apply ranked_sorted|exact Hx].
    cbn [StableSort.sort]. now rewrite IH.
  - now rewrite filter_insert_below.
Qed.

Lemma filter_sorted_prefix threshold l :
  StronglySorted (fun a b => (confidence b <= confidence a)%Z) l ->
  exists rest, l = List.filter (at_least threshold) l ++ rest.
Proof.
  induction 1 as [|y l Hs [rest IH] Hy].
  - exists []. reflexivity.
  - cbn [List.filter]. destruct (at_least threshold y) eqn:Hyt.
    + exists rest. cbn. now rewrite <- IH.
    + exists (y :: l). cbn.
      assert (Hnone : List.filter (at_least threshold) l = []).
      { clear -Hy Hyt. induction Hy as [|z l0 Hz _ IH0]; [reflexivity|].
        cbn. rewrite IH0.
        unfold at_least in *. apply Z.leb_gt in Hyt.
        destruct (Z.leb_spec threshold (confidence z)); [lia | reflexivity]. }
      now rewrite Hnone.
Qed.

(** X17: raising the threshold can only remove matches from the end of the
    ranked result: the result at the higher threshold is a prefix of the
    result at the lower one. *)
Theorem higher_threshold_gives_prefix (fs : FileSystem) (query : Mat) (c : string)
    (threshold threshold' top_n : Z) (st : State) :
  (0 <= top_n)%Z -> (threshold <= threshold')%Z ->
  exists rest,
    fst (matchEquipment norm convertTo fs query c threshold top_n false st)
    = fst (matchEquipment norm convertTo fs query c threshold' top_n false st)
      ++ rest.
Proof.
  intros Htop Hle. rewrite !matchEquipment_general.
  destruct (effective_query convertTo query) as [q|]; [|exists []; reflexivity].
  cbv zeta. cbn [fst examined]. rewrite !slice0_firstn by exact Htop.
  rewrite (included_raise q threshold threshold' _ Hle), <- sort_filter.
  set (S := StableSort.sort by_confidence (included norm q threshold _)).
  destruct (filter_sorted_prefix threshold' S (ranked_sorted _)) as [rest Hrest].
  clearbody S. remember (List.filter (at_least threshold') S) as P.
  rewrite Hrest, List.firstn_app. eexists. reflexivity.
Qed.

(** X19: a query that is empty, or that cannot be converted, still triggers
    the lazy load: the call returns [] and leaves exactly the state that
    [loadFeaturesFromCache] leaves. *)
Theorem empty_query_still_loads (fs : FileSystem) (query : Mat) (c : string)
    (threshold top_n : Z) (earlyReturn : bool) (st : State) :
  effective_query convertTo query = None ->
  matchEquipment norm convertTo fs query c threshold top_n earlyReturn st
  = ([], loadFeaturesFromCache fs c st).
Proof.
  intros Hq. now rewrite matchEquipment_general, Hq, ensureLoaded_load.
Qed.

End Thresholds.

(** X17, witness: thresholds 10 and 13 on A (15) and B (12). *)
Lemma higher_threshold_gives_prefix_witness :
  exists rest,
    fst (matchEquipment NORM_L2 no_convertTo Sample.fs_missing Sample.query15
           "weapon/main" 10 3 false Sample.state_AB)
    = fst (matchEquipment NORM_L2 no_convertTo Sample.fs_missing Sample.query15
             "weapon/main" 13 3 false Sample.state_AB) ++ rest.
Proof.
  assert (H03 : (0 <= 3)%Z) by lia.
  assert (Hle : (10 <= 13)%Z) by lia.
  exact (higher_threshold_gives_prefix NORM_L2 no_convertTo Sample.fs_missing
           Sample.query15 "weapon/main" 10 13 3 Sample.state_AB H03 Hle).
Defined.

Example threshold_thirteen :
  fst (matchEquipment NORM_L2 no_convertTo Sample.fs_missing Sample.query15
         "weapon/main" 13 3 false Sample.state_AB) = [mkMatch "A" 15].
Proof. vm_compute. reflexivity. Qed.

(** X19, witness: the empty query on "chara" reads the artifact. *)
Lemma empty_query_still_loads_witness :
  matchEquipment NORM_L2 no_convertTo Sample.fs_chara new_Mat "chara" 10 3 false
    initialState
  = ([], loadFeaturesFromCache Sample.fs_chara "chara" initialState).
Proof.
  exact (empty_query_still_loads NORM_L2 no_convertTo Sample.fs_chara new_Mat
           "chara" 10 3 false initialState eq_refl).
Defined.

Section QuietRequests.
Variable norm : Descriptor -> Descriptor -> Q.
Variable convertTo : Mat -> Z -> result Mat.
Variable fs : FileSystem.



End QuietRequests.

